(** * mdq: the markdown query engine

    A shallow embedding of [parser.go] and [query.go] (with the record
    types of [types.go]) and the properties of the parser, the code-fence
    filter, the query parser and the query engine.

    Go strings are byte sequences: they are modelled by [string], whose
    characters are the 256 byte values.  Go [int] values are modelled by
    [Z]; every integer computed by the code below is a length or a counter
    bounded by the input size, so no wrap-around can occur. *)

From Stdlib Require Import ZArith Ascii String List Bool Lia DecimalString
  DecimalPos.
From stdpp Require Import base list strings gmap.

Local Open Scope Z_scope.

(* ===================================================================== *)
(** * The Go standard library functions the program calls *)
(* ===================================================================== *)

Module Go.

(** The line feed and carriage return bytes. *)
Definition LF : ascii := ascii_of_nat 10.
Definition CR : ascii := ascii_of_nat 13.
Definition nl : string := String LF EmptyString.

Definition byte (c : ascii) : Z := Z.of_N (N_of_ascii c).

(** [s[n:]] *)
Fixpoint drop (n : nat) (s : string) : string :=
  match n, s with
  | O, _ => s
  | S n', String _ r => drop n' r
  | S _, EmptyString => EmptyString
  end.

(** [s[:n]] *)
Fixpoint take (n : nat) (s : string) : string :=
  match n, s with
  | S n', String c r => String c (take n' r)
  | _, _ => EmptyString
  end.

(** [strings.HasPrefix(s, prefix)] *)
Definition HasPrefix (s prefix : string) : bool := String.prefix prefix s.

(** [strings.Split(s, "\n")]: the separator is the single byte LF, so the
    result always has at least one element. *)
Fixpoint Split_nl (s : string) : list string :=
  match s with
  | EmptyString => [EmptyString]
  | String c r =>
      if Ascii.eqb c LF then EmptyString :: Split_nl r
      else match Split_nl r with
           | h :: t => String c h :: t
           | [] => [String c EmptyString]
           end
  end.

(** [strings.Join(elems, "\n")] *)
Fixpoint Join_nl (elems : list string) : string :=
  match elems with
  | [] => EmptyString
  | [x] => x
  | x :: rest => x +:+ nl +:+ Join_nl rest
  end.

(** [strings.TrimRight(s, "\n")]: every trailing LF byte is removed. *)
Fixpoint TrimRight_nl (s : string) : string :=
  match s with
  | EmptyString => EmptyString
  | String c r =>
      match TrimRight_nl r with
      | EmptyString => if Ascii.eqb c LF then EmptyString
                       else String c EmptyString
      | r' => String c r'
      end
  end.

(** ** [unicode/utf8] and [unicode.IsSpace] *)

Definition RuneError : Z := 0xFFFD.

Definition in_range (lo hi b : Z) : bool := (lo <=? b) && (b <=? hi).

(** A continuation byte of a multi-byte sequence. *)
Definition cont (b : Z) : bool := in_range 0x80 0xBF b.

(** [utf8.DecodeRuneInString]: the rune at the start of [s] and its width
    in bytes; an invalid or truncated encoding is [(RuneError, 1)]. *)
Definition DecodeRuneInString (s : string) : Z * nat :=
  match s with
  | EmptyString => (RuneError, 0%nat)
  | String c0 r =>
      let b0 := byte c0 in
      if b0 <? 0x80 then (b0, 1%nat)
      else if in_range 0xC2 0xDF b0 then
        match r with
        | String c1 _ =>
            let b1 := byte c1 in
            if cont b1
            then (Z.lor (Z.shiftl (Z.land b0 0x1F) 6) (Z.land b1 0x3F), 2%nat)
            else (RuneError, 1%nat)
        | _ => (RuneError, 1%nat)
        end
      else if in_range 0xE0 0xEF b0 then
        match r with
        | String c1 (String c2 _) =>
            let b1 := byte c1 in
            let b2 := byte c2 in
            let lo := if b0 =? 0xE0 then 0xA0 else 0x80 in
            let hi := if b0 =? 0xED then 0x9F else 0xBF in
            if in_range lo hi b1 && cont b2
            then (Z.lor (Z.shiftl (Z.land b0 0x0F) 12)
                    (Z.lor (Z.shiftl (Z.land b1 0x3F) 6) (Z.land b2 0x3F)),
                  3%nat)
            else (RuneError, 1%nat)
        | _ => (RuneError, 1%nat)
        end
      else if in_range 0xF0 0xF4 b0 then
        match r with
        | String c1 (String c2 (String c3 _)) =>
            let b1 := byte c1 in
            let b2 := byte c2 in
            let b3 := byte c3 in
            let lo := if b0 =? 0xF0 then 0x90 else 0x80 in
            let hi := if b0 =? 0xF4 then 0x8F else 0xBF in
            if in_range lo hi b1 && cont b2 && cont b3
            then (Z.lor (Z.shiftl (Z.land b0 0x07) 18)
                    (Z.lor (Z.shiftl (Z.land b1 0x3F) 12)
                       (Z.lor (Z.shiftl (Z.land b2 0x3F) 6)
                          (Z.land b3 0x3F))),
                  4%nat)
            else (RuneError, 1%nat)
        | _ => (RuneError, 1%nat)
        end
      else (RuneError, 1%nat)
  end.

(** [utf8.RuneStart] *)
Definition RuneStart (b : Z) : bool := negb (Z.land b 0xC0 =? 0x80).

Definition byteAt (s : string) (i : nat) : Z :=
  match String.get i s with Some c => byte c | None => 0 end.

(** [utf8.DecodeLastRuneInString]: the backward scan looks at most
    [UTFMax = 4] bytes back for the start of the last rune. *)
Definition DecodeLastRuneInString (s : string) : Z * nat :=
  let e := String.length s in
  match e with
  | O => (RuneError, 0%nat)
  | S e1 =>
      let r := byteAt s e1 in
      if r <? 0x80 then (r, 1%nat)
      else
        let lim := (e - 4)%nat in
        let start :=
          if (lim <=? e - 2)%nat && (2 <=? e)%nat && RuneStart (byteAt s (e - 2))
          then (e - 2)%nat
          else if (lim <=? e - 3)%nat && (3 <=? e)%nat && RuneStart (byteAt s (e - 3))
          then (e - 3)%nat
          else if (lim <=? e - 4)%nat && (4 <=? e)%nat && RuneStart (byteAt s (e - 4))
          then (e - 4)%nat
          else (lim - 1)%nat in
        let '(r', size) := DecodeRuneInString (drop start s) in
        if (start + size =? e)%nat then (r', size) else (RuneError, 1%nat)
  end.

(** [unicode.IsSpace]: the Latin-1 cases and the White_Space table. *)
Definition IsSpace (r : Z) : bool :=
  in_range 0x09 0x0D r || (r =? 0x20) || (r =? 0x85) || (r =? 0xA0)
  || (r =? 0x1680) || in_range 0x2000 0x200A r || in_range 0x2028 0x2029 r
  || (r =? 0x202F) || (r =? 0x205F) || (r =? 0x3000).

(** [strings.TrimLeftFunc(s, unicode.IsSpace)] *)
Fixpoint trimLeftSpace (fuel : nat) (s : string) : string :=
  match fuel with
  | O => s
  | S fuel' =>
      match s with
      | EmptyString => s
      | _ => let '(r, size) := DecodeRuneInString s in
             if IsSpace r then trimLeftSpace fuel' (drop size s) else s
      end
  end.

(** [strings.TrimRightFunc(s, unicode.IsSpace)] *)
Fixpoint trimRightSpace (fuel : nat) (s : string) : string :=
  match fuel with
  | O => s
  | S fuel' =>
      match s with
      | EmptyString => s
      | _ => let '(r, size) := DecodeLastRuneInString s in
             if IsSpace r
             then trimRightSpace fuel' (take (String.length s - size) s)
             else s
      end
  end.

(** [strings.TrimSpace(s)]: leading and trailing Unicode white space
    removed; at most [len(s)] runes are removed on each side. *)
Definition TrimSpace (s : string) : string :=
  let l := trimLeftSpace (String.length s) s in
  trimRightSpace (String.length l) l.

(** ** [bufio.Scanner] with the default [ScanLines] split function *)

(** [bufio.MaxScanTokenSize]: the scanner's buffer never grows beyond
    this, so a line of this many bytes or more stops the scan with
    [ErrTooLong] ([Scan] returns false). *)
Definition MaxScanTokenSize : nat := Z.to_nat 65536.

(** [dropCR]: one trailing carriage return is removed from a token. *)
Fixpoint dropCR (data : string) : string :=
  match data with
  | EmptyString => EmptyString
  | String c EmptyString =>
      if Ascii.eqb c CR then EmptyString else data
  | String c r => String c (dropCR r)
  end.

(** The lines [ScanLines] finds before any length limit applies: the
    LF-separated pieces, except that no token is produced for the empty
    remainder at end of input. *)
Fixpoint removeLastEmpty (l : list string) : list string :=
  match l with
  | [] => []
  | [x] => match x with EmptyString => [] | _ => [x] end
  | x :: rest => x :: removeLastEmpty rest
  end.

Definition rawLines (text : string) : list string :=
  removeLastEmpty (Split_nl text).

Fixpoint takeShort (l : list string) : list string :=
  match l with
  | [] => []
  | x :: rest =>
      if (String.length x <? MaxScanTokenSize)%nat
      then x :: takeShort rest else []
  end.

(** The successive values of [scanner.Text()] in a
    [for scanner.Scan()] loop over [text]. *)
Definition ScanTokens (text : string) : list string :=
  dropCR <$> takeShort (rawLines text).

(** ** [strconv.Atoi] on a non-empty string of decimal digits, and
    [fmt.Sprintf("%d", n)] *)

Definition isDigit (c : ascii) : bool := in_range 48 57 (byte c).

Fixpoint digitsValue (acc : Z) (s : string) : Z :=
  match s with
  | EmptyString => acc
  | String c r => digitsValue (10 * acc + (byte c - 48)) r
  end.

Definition MaxInt : Z := 2 ^ 63 - 1.

(** On overflow [Atoi] returns the largest [int] and a range error; the
    caller discards the error. *)
Definition Atoi (s : string) : Z :=
  Z.min (digitsValue 0 s) MaxInt.

Definition Sprintf_d (n : Z) : string :=
  NilZero.string_of_int (Z.to_int n).

End Go.

Import Go.

(* ===================================================================== *)
(** * types.go *)
(* ===================================================================== *)

(** Go's [error] interface; [None] stands for [nil]. *)
Inductive error : Type := Err (msg : string).

(** Section represents a markdown section (heading + content). *)
Record Section_ : Type := mkSection {
  Level : Z;        (* 1 for h1, 2 for h2, etc. *)
  Title : string;   (* Title text without the # symbols *)
  Heading : string; (* The full heading line including # *)
  Body : string;
  Index : Z         (* Index among sections of the same level *)
}.

(** Query represents a parsed query.  [q_ExplicitIndex] is the field
    [ExplicitIndex bool] that [query.go] reads and writes. *)
Record Query : Type := mkQuery {
  q_Type : string;  (* "frontmatter" or "section" *)
  q_Level : Z;
  q_Title : string;
  q_Index : Z;
  q_ExplicitIndex : bool;
  q_Field : string
}.

(** QueryResult represents the result of a query.  [Heading] and [Body]
    are plain Go strings: an unset field is the empty string. *)
Record QueryResult : Type := mkResult {
  r_File : string;
  r_Query : string;
  r_Heading : string;
  r_Body : string
}.

(** Options represents command-line options. *)
Record Options : Type := mkOptions {
  HeadOnly : bool;
  BodyOnly : bool;
  JSONOutput : bool;
  NoBlocks : bool;
  RawOutput : bool;
  ObjectOutput : bool;
  CSVOutput : bool
}.

Section Program.

(** The dynamic values a decoded YAML field can hold
    ([interface{}] values other than [nil]) and their rendering by
    [fmt.Sprintf("%v", value)]. *)
Variable Value : Type.
Variable Sprintf_v : Value -> string.

(** [yaml.Unmarshal(data, &m)] of gopkg.in/yaml.v3: the map after the
    call and the error it reports. *)
Variable yaml_Unmarshal :
  string -> gmap string (option Value) ->
  gmap string (option Value) * option error.

(** Document represents a parsed markdown document.  A frontmatter field
    whose value is [nil] is mapped to [None]. *)
Record Document : Type := mkDocument {
  FilePath : string;
  Frontmatter : gmap string (option Value);
  Sections : list Section_
}.

(* =================================================================== *)
(** * parser.go *)
(* =================================================================== *)

(** The loop of [removeCodeBlocks] over the scanner's tokens; the value
    is what the loop writes to [result]. *)
Fixpoint removeLoop (inCodeBlock : bool) (tokens : list string) : string :=
  match tokens with
  | [] => EmptyString
  | line :: rest =>
      if HasPrefix (TrimSpace line) "```" then
        removeLoop (negb inCodeBlock) rest
      else if negb inCodeBlock then
        line +:+ nl +:+ removeLoop inCodeBlock rest
      else removeLoop inCodeBlock rest
  end.

(** removeCodeBlocks removes triple-backtick code blocks from text. *)
Definition removeCodeBlocks (text : string) : string :=
  TrimRight_nl (removeLoop false (ScanTokens text)).

(** The frontmatter loop: [lines] is [lines[lineIdx:]]; the result is
    [frontmatterLines] and [lines[lineIdx:]] when the loop exits. *)
Fixpoint frontmatterLoop (lines frontmatterLines : list string)
  : list string * list string :=
  match lines with
  | [] => (frontmatterLines, [])
  | line :: rest =>
      if String.eqb (TrimSpace line) "---" then (frontmatterLines, rest)
      else frontmatterLoop rest (frontmatterLines ++ [line])
  end.

(** The variables of the section loop. *)
Record SplitState : Type := mkSplit {
  levelCounts : gmap Z Z;
  currentSection : option Section_;
  bodyLines : list string;
  sections : list Section_
}.

(** The run of [#] bytes at the start of [trimmed]. *)
Fixpoint countMarkers (trimmed : string) : nat :=
  match trimmed with
  | String c r => if Ascii.eqb c "#"%char then S (countMarkers r) else O
  | EmptyString => O
  end.

Definition isHeading (line : string) : bool :=
  HasPrefix (TrimSpace line) "#".

Definition closeSection (cur : Section_) (bodyLines : list string) : Section_ :=
  mkSection (Level cur) (Title cur) (Heading cur)
    (TrimRight_nl (Join_nl bodyLines)) (Index cur).

(** One iteration of the section loop. *)
Definition splitStep (st : SplitState) (line : string) : SplitState :=
  if isHeading line then
    let '(secs, body) :=
      match currentSection st with
      | Some cur => (sections st ++ [closeSection cur (bodyLines st)], [])
      | None => (sections st, bodyLines st)
      end in
    let trimmed := TrimSpace line in
    let level := countMarkers trimmed in
    let title := TrimSpace (drop level trimmed) in
    let counts :=
      <[Z.of_nat level := default 0 (levelCounts st !! Z.of_nat level) + 1]>
        (levelCounts st) in
    mkSplit counts
      (Some (mkSection (Z.of_nat level) title line EmptyString
               (default 0 (counts !! Z.of_nat level) - 1)))
      body secs
  else
    mkSplit (levelCounts st) (currentSection st)
      (bodyLines st ++ [line]) (sections st).

Definition splitLoop (st : SplitState) (lines : list string) : SplitState :=
  fold_left splitStep lines st.

Definition initSplit : SplitState := mkSplit ∅ None [] [].

(** Save the last section. *)
Definition finishSplit (st : SplitState) : list Section_ :=
  match currentSection st with
  | Some cur => sections st ++ [closeSection cur (bodyLines st)]
  | None => sections st
  end.

Definition filterBody (s : Section_) : Section_ :=
  mkSection (Level s) (Title s) (Heading s) (removeCodeBlocks (Body s))
    (Index s).

(** The frontmatter block and the lines left for the section loop. *)
Definition splitFrontmatter (lines : list string)
  : option (list string) * list string :=
  match lines with
  | first :: rest =>
      if String.eqb (TrimSpace first) "---" then
        let '(fm, rest') := frontmatterLoop rest [] in (Some fm, rest')
      else (None, lines)
  | [] => (None, lines)
  end.

(** ParseDocument parses a markdown file and extracts frontmatter and
    sections. *)
Definition ParseDocument (content filePath : string) (noBlocks : bool)
  : Document * option error :=
  let lines := Split_nl content in
  match lines with
  | [] => (mkDocument filePath ∅ [], None)
  | _ =>
      let '(fm, rest) := splitFrontmatter lines in
      let frontmatter :=
        match fm with
        | Some (l :: ls) => fst (yaml_Unmarshal (Join_nl (l :: ls)) ∅)
        | _ => ∅
        end in
      let secs := finishSplit (splitLoop initSplit rest) in
      let secs' := if noBlocks then filterBody <$> secs else secs in
      (mkDocument filePath frontmatter secs', None)
  end.

(* =================================================================== *)
(** * query.go *)
(* =================================================================== *)

(** The tail [\[(\d+)]$] of [indexPattern] after its opening bracket:
    one or more ASCII digits, the closing bracket, end of text.  The
    value is the digits matched by the second group. *)
Fixpoint matchDigitsClose (s : string) : option string :=
  match s with
  | String c r =>
      if isDigit c then
        if String.eqb r "]" then Some (String c EmptyString)
        else String c <$> matchDigitsClose r
      else None
  | EmptyString => None
  end.

(** [indexPattern.FindStringSubmatch(rest)] for the pattern
    [^(.*?)\[(\d+)]$]: the lazy first group grows one character at a
    time ([.] does not match a line feed) until the remainder matches.
    The value is [(matches[1], matches[2])]. *)
Fixpoint indexPattern (rest : string) : option (string * string) :=
  match rest with
  | EmptyString => None
  | String c r =>
      match (if Ascii.eqb c "["%char then matchDigitsClose r else None) with
      | Some ds => Some (EmptyString, ds)
      | None =>
          if Ascii.eqb c LF then None
          else match indexPattern r with
               | Some (p, ds) => Some (String c p, ds)
               | None => None
               end
      end
  end.

(** ParseQuery parses a query string into a Query object. *)
Definition ParseQuery (queryStr : string) : Query * option error :=
  if HasPrefix queryStr "#" then
    let level := countMarkers queryStr in
    let rest := drop level queryStr in
    match indexPattern rest with
    | Some (m1, m2) =>
        (mkQuery "section" (Z.of_nat level) (TrimSpace m1) (Atoi m2) true
           EmptyString, None)
    | None =>
        (mkQuery "section" (Z.of_nat level) (TrimSpace rest) 0 false
           EmptyString, None)
    end
  else
    (mkQuery "frontmatter" 0 EmptyString 0 false queryStr, None).

(** The marker run written by the loop [for i := 0; i < q.Level; i++]. *)
Fixpoint markers (n : nat) : string :=
  match n with
  | O => EmptyString
  | S n' => String "#"%char (markers n')
  end.

(** formatQuery converts a Query back to a string representation. *)
Definition formatQuery (q : Query) : string :=
  if String.eqb (q_Type q) "frontmatter" then q_Field q
  else
    markers (Z.to_nat (q_Level q)) +:+ q_Title q +:+
    (if q_ExplicitIndex q then "[" +:+ Sprintf_d (q_Index q) +:+ "]"
     else EmptyString).

(** A result record with neither heading nor body set. *)
Definition emptyResult (doc : Document) (query : Query) : QueryResult :=
  mkResult (FilePath doc) (formatQuery query) EmptyString EmptyString.

(** The result record built from a matching section. *)
Definition sectionResult (doc : Document) (query : Query) (opts : Options)
    (section : Section_) : QueryResult :=
  mkResult (FilePath doc) (formatQuery query)
    (if negb (BodyOnly opts) then Heading section else EmptyString)
    (if negb (HeadOnly opts) then Body section else EmptyString).

(** The level and title checks at the top of the section loop. *)
Definition sectionMatches (query : Query) (section : Section_) : bool :=
  if negb (Level section =? q_Level query) then false
  else if negb (String.eqb (q_Title query) EmptyString)
          && negb (String.eqb (Title section) (q_Title query)) then false
  else true.

(** The loop over [doc.Sections] with its two loop variables, followed by
    the code after the loop. *)
Fixpoint sectionLoop (doc : Document) (query : Query) (opts : Options)
    (secs : list Section_) (matchIndex : Z) (results : list QueryResult)
  : list QueryResult :=
  match secs with
  | [] =>
      if q_ExplicitIndex query && (length results =? 0)%nat
      then [emptyResult doc query]
      else results
  | section :: rest =>
      if negb (sectionMatches query section) then
        sectionLoop doc query opts rest matchIndex results
      else if q_ExplicitIndex query then
        if matchIndex =? q_Index query
        then [sectionResult doc query opts section]
        else sectionLoop doc query opts rest (matchIndex + 1) results
      else
        sectionLoop doc query opts rest (matchIndex + 1)
          (results ++ [sectionResult doc query opts section])
  end.

(** ExecuteQuery executes a query against a document. *)
Definition ExecuteQuery (doc : Document) (query : Query) (opts : Options)
  : list QueryResult :=
  if String.eqb (q_Type query) "frontmatter" then
    match Frontmatter doc !! q_Field query with
    | Some value =>
        let bodyStr :=
          match value with
          | Some v => Sprintf_v v
          | None => EmptyString
          end in
        [mkResult (FilePath doc) (formatQuery query)
           (if negb (BodyOnly opts) && negb (RawOutput opts)
            then q_Field query else EmptyString)
           (if negb (HeadOnly opts) then bodyStr else EmptyString)]
    | None => [emptyResult doc query]
    end
  else sectionLoop doc query opts (Sections doc) 0 [].

End Program.

Arguments mkDocument {Value}.
Arguments FilePath {Value}.
Arguments Frontmatter {Value}.
Arguments Sections {Value}.
Arguments ParseDocument {Value}.
Arguments ExecuteQuery {Value}.
Arguments emptyResult {Value}.
Arguments sectionResult {Value}.
Arguments sectionLoop {Value}.

(* ===================================================================== *)
(** * Notions used to state the properties *)
(* ===================================================================== *)

(** A section passes the filters of a section query: same level, and the
    same title when the query's title is not empty. *)
Definition passesFilters (query : Query) (section : Section_) : bool :=
  (Level section =? q_Level query)
  && (String.eqb (q_Title query) EmptyString
      || String.eqb (Title section) (q_Title query)).

(** The sections of a document that pass the filters, in document order. *)
Definition filtered {Value} (doc : Document Value) (query : Query)
  : list Section_ :=
  List.filter (passesFilters query) (Sections doc).

(** A section query is any query whose type tag is not "frontmatter". *)
Definition isSectionQuery (query : Query) : Prop :=
  q_Type query <> "frontmatter".

(** The lines handed to the section loop: those after the metadata
    block, or all of them when there is none. *)
Definition sectionLines (content : string) : list string :=
  snd (splitFrontmatter (Split_nl content)).

(** The sections built from those lines, before the code-fence filter. *)
Definition parsedSections (content : string) : list Section_ :=
  finishSplit (splitLoop initSplit (sectionLines content)).

(** The sections opened so far by the section loop, the open one last. *)
Definition allSections (st : SplitState) : list Section_ :=
  sections st ++ match currentSection st with Some c => [c] | None => [] end.

Definition levelIndex (s : Section_) : Z * Z := (Level s, Index s).

(** The number of entries of level [L] in a list of levels. *)
Definition countLevel (L : Z) (levels : list Z) : nat :=
  length (List.filter (Z.eqb L) levels).

(** The number of sections of level [L] among the first [i] sections. *)
Definition sameLevelBefore (i : nat) (secs : list Section_) (L : Z) : nat :=
  length (List.filter (fun t => Level t =? L) (firstn i secs)).

(** Every entry [(level, index)] has as index the number of earlier
    entries of the same level. *)
Definition ranked (M : list (Z * Z)) : Prop :=
  forall (i : nat) (L X : Z),
    M !! i = Some (L, X) ->
    X = Z.of_nat (countLevel L (map fst (firstn i M))).

(** The invariant of the section loop: headings follow the heading lines
    read so far, the per-level counters count the sections opened so far,
    and every section's index is its rank among same-level sections. *)
Definition splitInv (st : SplitState) (done : list string) : Prop :=
  map Heading (allSections st) = List.filter isHeading done
  /\ (forall L, default 0 (levelCounts st !! L)
                = Z.of_nat (countLevel L (map Level (allSections st))))
  /\ ranked (map levelIndex (allSections st)).

(** A line whose trimmed form starts with the triple-backtick token. *)
Definition isFence (line : string) : bool :=
  HasPrefix (TrimSpace line) "```".

(** The lines followed by a line feed each, as the filter's loop writes
    them to its builder. *)
Fixpoint unlines (K : list string) : string :=
  match K with
  | [] => EmptyString
  | x :: rest => x +:+ nl +:+ unlines rest
  end.

(** The tokens the filter's loop keeps. *)
Fixpoint keptLoop (inCodeBlock : bool) (tokens : list string) : list string :=
  match tokens with
  | [] => []
  | line :: rest =>
      if isFence line then keptLoop (negb inCodeBlock) rest
      else if negb inCodeBlock then line :: keptLoop inCodeBlock rest
      else keptLoop inCodeBlock rest
  end.

(** The list without its trailing empty strings. *)
Fixpoint stripEmpty (L : list string) : list string :=
  match L with
  | [] => []
  | x :: rest =>
      match stripEmpty rest with
      | [] => match x with EmptyString => [] | _ => [x] end
      | rest' => x :: rest'
      end
  end.

(** The last byte of the string is a carriage return. *)
Fixpoint endsWithCR (s : string) : bool :=
  match s with
  | EmptyString => false
  | String c EmptyString => Ascii.eqb c CR
  | String _ r => endsWithCR r
  end.

(** The last two bytes of the string are carriage returns. *)
Fixpoint endsWithTwoCR (s : string) : bool :=
  match s with
  | EmptyString => false
  | String a (String b EmptyString) => Ascii.eqb a CR && Ascii.eqb b CR
  | String _ r => endsWithTwoCR r
  end.

(** A line the scanner accepts: shorter than its largest token. *)
Definition isShort (line : string) : bool :=
  (String.length line <? MaxScanTokenSize)%nat.

(** The string holds no line feed byte. *)
Fixpoint noLF (s : string) : bool :=
  match s with
  | EmptyString => true
  | String c r => negb (Ascii.eqb c LF) && noLF r
  end.

(** No projection flag set. *)
Definition noProjection : Options :=
  mkOptions false false false false false false false.

(** A document with three h1 sections and three h2 sections, two of them
    titled Notes; the second Notes section has stored index 2. *)
Definition exampleDoc : Document string :=
  mkDocument "notes.md" ∅
    [ mkSection 1 "One" "# One" "first" 0;
      mkSection 2 "Notes" "## Notes" "n0" 0;
      mkSection 1 "Two" "# Two" "second" 1;
      mkSection 2 "Other" "## Other" "o" 1;
      mkSection 2 "Notes" "## Notes" "n1" 2;
      mkSection 1 "Three" "# Three" "third" 2 ].

(** Two documents that differ only in the metadata field [draft]: present
    with a null value in the first, absent from the second. *)
Definition nullDoc : Document string :=
  mkDocument "notes.md" {[ "draft" := None ]} [].

Definition absentDoc : Document string :=
  mkDocument "notes.md" ∅ [].

Definition bodyOnly : Options :=
  mkOptions false true false false false false false.

(** The rendering of the example values, which are strings already. *)
Definition showString (v : string) : string := v.

(** The type of [yaml.Unmarshal] applied to the metadata map: the data,
    the map before the call, the map after it and the error reported. *)
Definition Decoder (Value : Type) : Type :=
  string -> gmap string (option Value) ->
  gmap string (option Value) * option error.

(** Every byte of the string is the marker [#]. *)
Fixpoint allMarkers (s : string) : bool :=
  match s with
  | EmptyString => true
  | String c r => Ascii.eqb c "#"%char && allMarkers r
  end.

(** [n] copies of one byte. *)
Fixpoint repeatByte (c : ascii) (n : nat) : string :=
  match n with
  | O => EmptyString
  | S n' => String c (repeatByte c n')
  end.

(** A body line ending in a carriage return, and a body line as long as
    the scanner's largest token. *)
Definition crLine : string := String "x"%char (String CR EmptyString).
Definition longLine : string := repeatByte "a"%char MaxScanTokenSize.

(** Every byte of the string is an ASCII decimal digit. *)
Fixpoint allDigits (s : string) : bool :=
  match s with
  | EmptyString => true
  | String c r => isDigit c && allDigits r
  end.

(** The record with its query label replaced. *)
Definition relabel (label : string) (r : QueryResult) : QueryResult :=
  mkResult (r_File r) label (r_Heading r) (r_Body r).

(** The lines before the first heading line, and then every heading line
    with the non-heading lines that follow it up to the next heading. *)
Fixpoint chunks (lines : list string)
  : list string * list (string * list string) :=
  match lines with
  | [] => ([], [])
  | l :: rest =>
      let '(pre, cs) := chunks rest in
      if isHeading l then ([], (l, pre) :: cs) else (l :: pre, cs)
  end.

(** The heading and body of every section, read off the chunks: a body is
    its lines joined by line feeds without the trailing ones; the lines
    before the first heading go in front of the first section's lines. *)
Definition sectionTexts (lines : list string) : list (string * string) :=
  match chunks lines with
  | (pre, []) => []
  | (pre, (h, b) :: cs) =>
      (h, TrimRight_nl (Join_nl (pre ++ b)))
      :: map (fun c => (fst c, TrimRight_nl (Join_nl (snd c)))) cs
  end.

Definition headingAndBody (s : Section_) : string * string :=
  (Heading s, Body s).

(* ===================================================================== *)
(** * output.go: the plain text formatter *)
(* ===================================================================== *)

(** The test that [result.Heading] and [result.Body] are both empty. *)
Definition isEmptyResult (result : QueryResult) : bool :=
  String.eqb (r_Heading result) EmptyString
  && String.eqb (r_Body result) EmptyString.

(** What one iteration writes for a result that is not skipped: the
    heading if present, a line feed between heading and body, the body if
    present, and a final line feed. *)
Definition writeResult (opts : Options) (result : QueryResult) : string :=
  (if negb (String.eqb (r_Heading result) EmptyString) && negb (BodyOnly opts)
   then r_Heading result +:+
        (if negb (String.eqb (r_Body result) EmptyString)
            && negb (HeadOnly opts)
         then nl else EmptyString)
   else EmptyString)
  +:+ (if negb (String.eqb (r_Body result) EmptyString)
          && negb (HeadOnly opts)
       then r_Body result else EmptyString)
  +:+ nl.

(** The loop of the raw mode. *)
Fixpoint rawLoop (opts : Options) (results : list QueryResult) : string :=
  match results with
  | [] => EmptyString
  | result :: rest =>
      if isEmptyResult result then rawLoop opts rest
      else writeResult opts result +:+ rawLoop opts rest
  end.

(** The grouping loop with its variables [groups], [currentFile] and
    [currentResults], followed by the flush after the loop. *)
Fixpoint groupLoop (results : list QueryResult)
    (groups : list (string * list QueryResult)) (currentFile : string)
    (currentResults : list QueryResult)
  : list (string * list QueryResult) :=
  match results with
  | [] =>
      if negb (String.eqb currentFile EmptyString)
      then groups ++ [(currentFile, currentResults)] else groups
  | result :: rest =>
      if negb (String.eqb (r_File result) currentFile) then
        groupLoop rest
          (if negb (String.eqb currentFile EmptyString)
           then groups ++ [(currentFile, currentResults)] else groups)
          (r_File result) [result]
      else groupLoop rest groups currentFile (currentResults ++ [result])
  end.

(** The loop over [group.results]; [n] is [len(group.results)] and [ri]
    the index of the first result of [results]. *)
Fixpoint groupResultsLoop (opts : Options) (n ri : nat)
    (results : list QueryResult) : string :=
  match results with
  | [] => EmptyString
  | result :: rest =>
      if isEmptyResult result then groupResultsLoop opts n (S ri) rest
      else
        (if (0 <? ri)%nat && (1 <? n)%nat then nl else EmptyString)
        +:+ writeResult opts result
        +:+ groupResultsLoop opts n (S ri) rest
  end.

(** The loop over [groups]; [ngroups] is [len(groups)] and [gi] the index
    of the first group of [groups]. *)
Fixpoint groupsLoop (opts : Options) (ngroups gi : nat)
    (groups : list (string * list QueryResult)) : string :=
  match groups with
  | [] => EmptyString
  | (file, results) :: rest =>
      (if (1 <? ngroups)%nat
       then (if (0 <? gi)%nat then nl else EmptyString)
            +:+ "==> " +:+ file +:+ " <==" +:+ nl
       else EmptyString)
      +:+ groupResultsLoop opts (length results) 0 results
      +:+ groupsLoop opts ngroups (S gi) rest
  end.

(** formatText formats results as plain text. *)
Definition formatText (results : list QueryResult) (opts : Options)
  : string :=
  if RawOutput opts then TrimRight_nl (rawLoop opts results)
  else
    let groups := groupLoop results [] EmptyString [] in
    TrimRight_nl (groupsLoop opts (length groups) 0 groups).

(** Raw output, no other flag. *)
Definition rawOnly : Options :=
  mkOptions false false false false true false false.

(* ===================================================================== *)
(** * More of the Go standard library *)
(* ===================================================================== *)

(** [strings.Split(s, sep)] for a separator of one byte. *)
Fixpoint Split_byte (sep : ascii) (s : string) : list string :=
  match s with
  | EmptyString => [EmptyString]
  | String c r =>
      if Ascii.eqb c sep then EmptyString :: Split_byte sep r
      else match Split_byte sep r with
           | h :: t => String c h :: t
           | [] => [String c EmptyString]
           end
  end.

(** [strings.Join(elems, sep)] *)
Fixpoint Join (elems : list string) (sep : string) : string :=
  match elems with
  | [] => EmptyString
  | [x] => x
  | x :: rest => x +:+ sep +:+ Join rest sep
  end.

(** [strings.ReplaceAll(s, old, new)] for [old] and [new] of one byte. *)
Fixpoint ReplaceAll_byte (s : string) (old new : ascii) : string :=
  match s with
  | EmptyString => EmptyString
  | String c r =>
      String (if Ascii.eqb c old then new else c) (ReplaceAll_byte r old new)
  end.

(** [strings.Fields(s)]: the maximal runs of runes that are not white
    space.  [cur] is the field being read, if any; every iteration
    consumes one rune, so [len(s)] iterations are enough. *)
Fixpoint fieldsLoop (fuel : nat) (s : string) (cur : option string)
  : list string :=
  match fuel with
  | O => match cur with Some f => [f] | None => [] end
  | S fuel' =>
      match s with
      | EmptyString => match cur with Some f => [f] | None => [] end
      | _ =>
          let '(r, size) := DecodeRuneInString s in
          if IsSpace r then
            match cur with
            | Some f => f :: fieldsLoop fuel' (drop size s) None
            | None => fieldsLoop fuel' (drop size s) None
            end
          else
            fieldsLoop fuel' (drop size s)
              (Some (match cur with
                     | Some f => f +:+ take size s
                     | None => take size s
                     end))
      end
  end.

Definition Fields (s : string) : list string :=
  fieldsLoop (String.length s) s None.

(* ===================================================================== *)
(** * main.go: the comma-separated queries *)
(* ===================================================================== *)

(** The loop over the parts. *)
Fixpoint queryStringsLoop (parts : list string) : list string :=
  match parts with
  | [] => []
  | part :: rest =>
      let trimmed := TrimSpace part in
      if negb (String.eqb trimmed EmptyString)
      then trimmed :: queryStringsLoop rest
      else queryStringsLoop rest
  end.

(** parseQueryStrings splits comma-separated query strings. *)
Definition parseQueryStrings (queryStr : string) : list string :=
  queryStringsLoop (Split_byte ","%char queryStr).

(* ===================================================================== *)
(** * output.go: the CSV formatter *)
(* ===================================================================== *)

(** escapeCSV escapes a string for CSV output. *)
Definition escapeCSV (s : string) : string :=
  let s1 := ReplaceAll_byte s LF " "%char in
  let s2 := ReplaceAll_byte s1 CR " "%char in
  Join (Fields s2) " ".

(** The first loop of [formatCSV]: the query names in order of first
    occurrence; [seenQueries] is the Go map of the names already met. *)
Fixpoint queryNamesLoop (results : list QueryResult)
    (queryNames : list string) (seenQueries : gmap string bool)
  : list string :=
  match results with
  | [] => queryNames
  | result :: rest =>
      if negb (String.eqb (r_Query result) EmptyString)
         && negb (default false (seenQueries !! r_Query result))
      then queryNamesLoop rest (queryNames ++ [r_Query result])
             (<[r_Query result := true]> seenQueries)
      else queryNamesLoop rest queryNames seenQueries
  end.

(** [fileData]: the file label and the value of each query. *)
Record fileData : Type := mkFileData {
  fd_file : string;
  fd_values : gmap string string
}.

(** The second loop: [fileMap] and [fileOrder].  [fd] is the entry of the
    result's file, created with no values when the file is new. *)
Fixpoint fileLoop (results : list QueryResult)
    (fileMap : gmap string fileData) (fileOrder : list string)
  : gmap string fileData * list string :=
  match results with
  | [] => (fileMap, fileOrder)
  | result :: rest =>
      let fd :=
        match fileMap !! r_File result with
        | Some fd => fd
        | None => mkFileData (r_File result) ∅
        end in
      let fileOrder1 :=
        match fileMap !! r_File result with
        | Some _ => fileOrder
        | None => fileOrder ++ [r_File result]
        end in
      let value :=
        if negb (String.eqb (r_Body result) EmptyString)
        then r_Body result else EmptyString in
      fileLoop rest
        (<[r_File result :=
             mkFileData (fd_file fd)
               (<[r_Query result := escapeCSV value]> (fd_values fd))]>
           fileMap)
        fileOrder1
  end.

(** The third loop: one row per file of [fileOrder].  [None] stands for
    the run-time panic of reading through a nil [*fileData]. *)
Fixpoint rowsLoop (fileMap : gmap string fileData) (queryNames : list string)
    (fileOrder : list string) : option (list (list string)) :=
  match fileOrder with
  | [] => Some []
  | fileName :: rest =>
      match fileMap !! fileName with
      | Some fd =>
          match rowsLoop fileMap queryNames rest with
          | Some rows =>
              Some ((fd_file fd
                     :: map (fun queryName =>
                               default EmptyString (fd_values fd !! queryName))
                          queryNames) :: rows)
          | None => None
          end
      | None => None
      end
  end.

(** The records handed to the CSV writer, header first. *)
Definition csvRecords (results : list QueryResult)
  : option (list (list string)) :=
  let queryNames := queryNamesLoop results [] ∅ in
  let '(fileMap, fileOrder) := fileLoop results ∅ [] in
  match rowsLoop fileMap queryNames fileOrder with
  | Some rows => Some (("file" :: queryNames) :: rows)
  | None => None
  end.

(** formatCSV formats results as CSV.  [csvWrite] gives the bytes that
    [encoding/csv]'s [Writer.Write] emits for one record. *)
Definition formatCSV (csvWrite : list string -> string)
    (results : list QueryResult) : option string :=
  match results with
  | [] => Some EmptyString
  | _ =>
      match csvRecords results with
      | Some records =>
          Some (TrimRight_nl
                  (fold_right (fun record out => csvWrite record +:+ out)
                     EmptyString records))
      | None => None
      end
  end.

(* ===================================================================== *)
(** * Notions used to state the properties of the formatters *)
(* ===================================================================== *)

(** The string holds no byte [c]. *)
Fixpoint noByte (c : ascii) (s : string) : bool :=
  match s with
  | EmptyString => true
  | String x r => negb (Ascii.eqb x c) && noByte c r
  end.

(** The elements of a list in order of first occurrence. *)
Definition firstOccurrences (l : list string) : list string :=
  rev (remove_dups (rev l)).

(** The body of the last record with the given file and query labels. *)
Fixpoint lastBody (f q : string) (results : list QueryResult)
  : option string :=
  match results with
  | [] => None
  | r :: rest =>
      match lastBody f q rest with
      | Some b => Some b
      | None =>
          if String.eqb (r_File r) f && String.eqb (r_Query r) q
          then Some (r_Body r) else None
      end
  end.

(** The value stored for a file and a query in [fileMap]. *)
Definition cellOf (fileMap : gmap string fileData) (f q : string)
  : option string :=
  match fileMap !! f with
  | Some fd => fd_values fd !! q
  | None => None
  end.

(** The cell of a file and a query in the CSV table: the escaped body of
    the last record with these labels, or the empty string. *)
Definition csvCell (results : list QueryResult) (f q : string) : string :=
  match lastBody f q results with
  | Some b => escapeCSV b
  | None => EmptyString
  end.

Definition nonEmpty (s : string) : bool := negb (String.eqb s EmptyString).

(* ===================================================================== *)
(** * The query engine *)
(* ===================================================================== *)

Section QueryEngine.

Context {Value : Type} (Sprintf_v : Value -> string).
Implicit Types (doc : Document Value) (query : Query) (opts : Options).

Lemma sectionMatches_passesFilters query section :
  sectionMatches query section = passesFilters query section.
Proof.
  unfold sectionMatches, passesFilters.
  destruct (Level section =? q_Level query); simpl; [|reflexivity].
  destruct (String.eqb (q_Title query) EmptyString); simpl; [reflexivity|].
  destruct (String.eqb (Title section) (q_Title query)); reflexivity.
Qed.

(** Without an explicit index the loop appends one record per passing
    section to [results] and returns the list. *)
Lemma sectionLoop_implicit doc query opts secs :
  q_ExplicitIndex query = false ->
  forall matchIndex results,
    sectionLoop doc query opts secs matchIndex results
    = results ++ map (sectionResult doc query opts)
                   (List.filter (passesFilters query) secs).
Proof.
  intros Hex. induction secs as [|s secs IH]; intros mi res; simpl.
  - rewrite Hex. simpl. now rewrite app_nil_r.
  - rewrite sectionMatches_passesFilters, Hex.
    destruct (passesFilters query s); simpl.
    + rewrite IH, <- app_assoc. reflexivity.
    + apply IH.
Qed.

(** With an explicit index and no record collected, the loop returns the
    passing section whose rank is the distance left to the index, or the
    placeholder. *)
Lemma sectionLoop_explicit doc query opts secs :
  q_ExplicitIndex query = true ->
  forall (k : nat) matchIndex,
    q_Index query = matchIndex + Z.of_nat k ->
    sectionLoop doc query opts secs matchIndex []
    = match nth_error (List.filter (passesFilters query) secs) k with
      | Some s => [sectionResult doc query opts s]
      | None => [emptyResult doc query]
      end.
Proof.
  intros Hex. induction secs as [|s secs IH]; intros k mi Hk; simpl.
  - rewrite Hex. simpl. now destruct k.
  - rewrite sectionMatches_passesFilters, Hex.
    destruct (passesFilters query s); simpl.
    + destruct k as [|k].
      * replace (mi =? q_Index query) with true
          by (symmetry; apply Z.eqb_eq; lia).
        reflexivity.
      * replace (mi =? q_Index query) with false
          by (symmetry; apply Z.eqb_neq; lia).
        simpl. apply IH. lia.
    + now apply IH.
Qed.

(** A negative index is never reached by the counter. *)
Lemma sectionLoop_explicit_miss doc query opts secs :
  q_ExplicitIndex query = true ->
  forall matchIndex,
    q_Index query < matchIndex ->
    sectionLoop doc query opts secs matchIndex [] = [emptyResult doc query].
Proof.
  intros Hex. induction secs as [|s secs IH]; intros mi Hlt; simpl.
  - now rewrite Hex.
  - rewrite Hex. destruct (sectionMatches query s); simpl.
    + replace (mi =? q_Index query) with false
        by (symmetry; apply Z.eqb_neq; lia).
      apply IH. lia.
    + now apply IH.
Qed.

Lemma section_query_dispatch doc query opts :
  isSectionQuery query ->
  ExecuteQuery Sprintf_v doc query opts
  = sectionLoop doc query opts (Sections doc) 0 [].
Proof.
  intros Hs. unfold ExecuteQuery.
  destruct (String.eqb_spec (q_Type query) "frontmatter") as [E|E];
    [contradiction|reflexivity].
Qed.

(** C1. For a section query without an explicit index, [ExecuteQuery]
    returns exactly one record per section passing the level filter (and
    the title filter when the query's title is not empty), in document
    order; each record carries that section's heading and body, subject
    only to the head-only / body-only projection of the caller (with no
    projection flag, the heading and the body themselves).  When no
    section passes, the list is empty: no placeholder record. *)
Theorem C1_implicit_index_returns_all doc query opts :
  isSectionQuery query ->
  q_ExplicitIndex query = false ->
  ExecuteQuery Sprintf_v doc query opts
  = map (fun s => mkResult (FilePath doc) (formatQuery query)
                    (if BodyOnly opts then EmptyString else Heading s)
                    (if HeadOnly opts then EmptyString else Body s))
        (filtered doc query)
  /\ ExecuteQuery Sprintf_v doc query noProjection
     = map (fun s => mkResult (FilePath doc) (formatQuery query)
                       (Heading s) (Body s))
         (filtered doc query)
  /\ (filtered doc query = [] ->
      ExecuteQuery Sprintf_v doc query opts = []).
Proof.
  intros Hs Hex.
  assert (H : forall o, ExecuteQuery Sprintf_v doc query o
              = map (sectionResult doc query o) (filtered doc query)).
  { intros o. rewrite section_query_dispatch by assumption.
    now rewrite sectionLoop_implicit by assumption. }
  split; [|split].
  - rewrite H. apply map_ext. intros s. unfold sectionResult.
    destruct (BodyOnly opts), (HeadOnly opts); reflexivity.
  - rewrite H. reflexivity.
  - intros E. rewrite H, E. reflexivity.
Qed.

(** C2. For a section query with explicit index [N], [ExecuteQuery]
    returns only the section at 0-based rank [N] among the sections
    passing the level and title filters (the rank is counted over that
    filtered list; the sections' stored [Index] field is not read), and
    when there is no such rank it returns exactly one placeholder record
    whose heading and body are both unset. *)
Theorem C2_explicit_index_selects_rank doc query opts (N : nat) :
  isSectionQuery query ->
  q_ExplicitIndex query = true ->
  q_Index query = Z.of_nat N ->
  ExecuteQuery Sprintf_v doc query opts
  = match nth_error (filtered doc query) N with
    | Some s => [mkResult (FilePath doc) (formatQuery query)
                   (if BodyOnly opts then EmptyString else Heading s)
                   (if HeadOnly opts then EmptyString else Body s)]
    | None => [mkResult (FilePath doc) (formatQuery query)
                 EmptyString EmptyString]
    end.
Proof.
  intros Hs Hex HN.
  rewrite section_query_dispatch by assumption.
  rewrite (sectionLoop_explicit doc query opts (Sections doc) Hex N 0)
    by lia.
  unfold filtered. destruct (nth_error _ N); [|reflexivity].
  unfold sectionResult.
  destruct (BodyOnly opts), (HeadOnly opts); reflexivity.
Qed.

Lemma frontmatter_dispatch doc query opts :
  q_Type query = "frontmatter" ->
  formatQuery query = q_Field query
  /\ ExecuteQuery Sprintf_v doc query opts
     = match Frontmatter doc !! q_Field query with
       | Some value =>
           [mkResult (FilePath doc) (q_Field query)
              (if negb (BodyOnly opts) && negb (RawOutput opts)
               then q_Field query else EmptyString)
              (if negb (HeadOnly opts)
               then match value with
                    | Some v => Sprintf_v v
                    | None => EmptyString
                    end
               else EmptyString)]
       | None =>
           [mkResult (FilePath doc) (q_Field query) EmptyString EmptyString]
       end.
Proof.
  intros Ht.
  assert (Hf : formatQuery query = q_Field query).
  { unfold formatQuery. now rewrite Ht. }
  split; [exact Hf|].
  unfold ExecuteQuery, emptyResult. rewrite Ht, Hf. reflexivity.
Qed.

(** C5 (as the code has it). A field present with a null value yields one
    record whose body is the empty string and whose heading is the field
    name unless body-only or raw output is requested; an absent field
    yields one record with empty heading and empty body.  Result fields
    are plain strings, so the two records differ exactly when the heading
    is set: neither body-only nor raw output, and a non-empty field
    name. *)
Theorem C5_null_versus_absent doc1 doc2 query opts :
  q_Type query = "frontmatter" ->
  FilePath doc1 = FilePath doc2 ->
  Frontmatter doc1 !! q_Field query = Some None ->
  Frontmatter doc2 !! q_Field query = None ->
  ExecuteQuery Sprintf_v doc1 query opts
  = [mkResult (FilePath doc1) (q_Field query)
       (if negb (BodyOnly opts) && negb (RawOutput opts)
        then q_Field query else EmptyString)
       EmptyString]
  /\ ExecuteQuery Sprintf_v doc2 query opts
     = [mkResult (FilePath doc1) (q_Field query) EmptyString EmptyString]
  /\ (ExecuteQuery Sprintf_v doc1 query opts
      <> ExecuteQuery Sprintf_v doc2 query opts
      <-> BodyOnly opts = false /\ RawOutput opts = false
          /\ q_Field query <> EmptyString).
Proof.
  intros Ht Hp H1 H2.
  destruct (frontmatter_dispatch doc1 query opts Ht) as [_ E1].
  destruct (frontmatter_dispatch doc2 query opts Ht) as [_ E2].
  rewrite H1 in E1. rewrite H2, <- Hp in E2.
  assert (E1' : ExecuteQuery Sprintf_v doc1 query opts
            = [mkResult (FilePath doc1) (q_Field query)
                 (if negb (BodyOnly opts) && negb (RawOutput opts)
                  then q_Field query else EmptyString)
                 EmptyString]).
  { rewrite E1. now destruct (HeadOnly opts). }
  split; [exact E1'|]. split; [exact E2|].
  rewrite E1', E2.
  destruct (BodyOnly opts), (RawOutput opts); simpl;
    try (split; [intros H; now contradiction H | intros (?&?&?); discriminate]).
  split.
  - intros H. repeat split; try reflexivity.
    intros E. apply H. now rewrite E.
  - intros (_&_&Hne) E. apply Hne. now inversion E.
Qed.

End QueryEngine.

(* ===================================================================== *)
(** * The query parser and the canonical rendering *)
(* ===================================================================== *)

Lemma append_nil_l (s : string) : EmptyString +:+ s = s.
Proof. reflexivity. Qed.

Lemma append_cons (c : ascii) (a b : string) :
  String c a +:+ b = String c (a +:+ b).
Proof. reflexivity. Qed.

Lemma append_empty_r (s : string) : s +:+ EmptyString = s.
Proof.
  induction s as [|c s IH]; [reflexivity|].
  now rewrite append_cons, IH.
Qed.

(** The marker run has the requested length and holds only [#] bytes. *)
Lemma markers_length (n : nat) : String.length (markers n) = n.
Proof. induction n as [|n IH]; simpl; [reflexivity|now rewrite IH]. Qed.

Lemma matchDigitsClose_zero_suffix (r : string) :
  matchDigitsClose (r +:+ "[0]") = None.
Proof.
  induction r as [|c r IH]; [reflexivity|].
  rewrite append_cons. cbn [matchDigitsClose].
  destruct (isDigit c); [|reflexivity].
  rewrite IH.
  destruct r as [|c' r]; [reflexivity|].
  rewrite append_cons. cbn [String.eqb].
  destruct (Ascii.eqb c' "]"); [|reflexivity].
  destruct r; reflexivity.
Qed.

(** A title without line feed followed by the suffix [[0]] is matched by
    the index pattern, with the title as first group. *)
Lemma indexPattern_zero_suffix (t : string) :
  noLF t = true -> indexPattern (t +:+ "[0]") = Some (t, "0").
Proof.
  induction t as [|c t IH]; intros Hn; [reflexivity|].
  cbn [noLF] in Hn. apply andb_true_iff in Hn as [Hc Ht].
  rewrite append_cons. cbn [indexPattern].
  rewrite matchDigitsClose_zero_suffix.
  assert (E : Ascii.eqb c LF = false) by (now destruct (Ascii.eqb c LF)).
  rewrite E, (IH Ht).
  now destruct (Ascii.eqb c "[").
Qed.

(* ===================================================================== *)
(** * The section splitter *)
(* ===================================================================== *)

Section Parser.

Context {Value : Type}.
Variable yaml_Unmarshal :
  string -> gmap string (option Value) ->
  gmap string (option Value) * option error.

Lemma ParseDocument_unfold content filePath noBlocks :
  ParseDocument yaml_Unmarshal content filePath noBlocks
  = (mkDocument filePath
       (match fst (splitFrontmatter (Split_nl content)) with
        | Some (l :: ls) => fst (yaml_Unmarshal (Join_nl (l :: ls)) ∅)
        | _ => ∅
        end)
       (if noBlocks
        then filterBody <$> parsedSections content
        else parsedSections content),
     None).
Proof.
  unfold ParseDocument, parsedSections, sectionLines.
  destruct (Split_nl content) as [|first rest] eqn:E.
  - destruct content as [|c content]; [discriminate|].
    simpl in E. destruct (Ascii.eqb c LF); [discriminate|].
    destruct (Split_nl content); discriminate.
  - destruct (splitFrontmatter (first :: rest)) as [fm rest']; reflexivity.
Qed.

(** Appending an entry whose index is the count of its level keeps the
    list ranked. *)
Lemma ranked_snoc (M : list (Z * Z)) (L : Z) :
  ranked M -> ranked (M ++ [(L, Z.of_nat (countLevel L (map fst M)))]).
Proof.
  intros HM i L' X Hi.
  destruct (Nat.lt_ge_cases i (length M)) as [Hlt|Hge].
  - rewrite lookup_app_l in Hi by assumption.
    rewrite take_app_le by lia. now apply HM.
  - rewrite lookup_app_r in Hi by assumption.
    destruct (i - length M)%nat as [|k] eqn:Ek; [|now destruct k].
    assert (i = length M) by lia; subst i.
    simpl in Hi. injection Hi as <- <-.
    rewrite take_app_le, firstn_all by lia. reflexivity.
Qed.

Lemma countLevel_snoc (L L' : Z) (ls : list Z) :
  Z.of_nat (countLevel L (ls ++ [L']))
  = Z.of_nat (countLevel L ls) + (if L =? L' then 1 else 0).
Proof.
  unfold countLevel. rewrite List.filter_app, length_app. simpl.
  destruct (L =? L'); simpl; lia.
Qed.

Lemma allSections_step_heading st line :
  isHeading line = true ->
  exists new,
    Heading new = line
    /\ Level new = Z.of_nat (countMarkers (TrimSpace line))
    /\ Index new = default 0 (levelCounts st !! Level new)
    /\ levelCounts (splitStep st line)
       = <[Level new := default 0 (levelCounts st !! Level new) + 1]>
           (levelCounts st)
    /\ map Heading (allSections (splitStep st line))
       = map Heading (allSections st) ++ [line]
    /\ map levelIndex (allSections (splitStep st line))
       = map levelIndex (allSections st) ++ [levelIndex new].
Proof.
  intros Hh. unfold splitStep. rewrite Hh.
  set (lv := Z.of_nat (countMarkers (TrimSpace line))).
  set (cnt := default 0 (levelCounts st !! lv)).
  exists (mkSection lv
            (TrimSpace (drop (countMarkers (TrimSpace line)) (TrimSpace line)))
            line EmptyString cnt).
  assert (Ei : default 0 (<[lv := cnt + 1]> (levelCounts st) !! lv) - 1 = cnt).
  { rewrite lookup_insert_eq. simpl. lia. }
  unfold allSections.
  destruct (currentSection st) as [cur|]; cbn -[TrimSpace];
    fold lv; fold cnt; rewrite Ei;
    repeat split; try reflexivity;
    rewrite ?map_app, ?app_nil_r; reflexivity.
Qed.

Lemma splitStep_inv st done line :
  splitInv st done -> splitInv (splitStep st line) (done ++ [line]).
Proof.
  intros (H1 & H2 & H3).
  destruct (isHeading line) eqn:Hh.
  - destruct (allSections_step_heading st line Hh)
      as (new & Eh & El & Ei & Ec & EH & EK).
    assert (EL : map Level (allSections (splitStep st line))
                 = map Level (allSections st) ++ [Level new]).
    { apply (f_equal (map fst)) in EK.
      rewrite map_app, !map_map in EK. exact EK. }
    repeat split.
    + rewrite EH, H1, List.filter_app. simpl. now rewrite Hh.
    + intros L. rewrite Ec, EL, countLevel_snoc.
      destruct (Z.eqb_spec L (Level new)) as [->|Hne].
      * rewrite lookup_insert_eq. simpl. now rewrite H2.
      * rewrite lookup_insert_ne by congruence. rewrite H2. lia.
    + rewrite EK. unfold levelIndex at 2. rewrite Ei, H2.
      replace (map Level (allSections st))
        with (map fst (map levelIndex (allSections st)))
        by (now rewrite map_map).
      now apply ranked_snoc.
  - assert (E : allSections (splitStep st line) = allSections st).
    { unfold splitStep. rewrite Hh. reflexivity. }
    assert (Ec : levelCounts (splitStep st line) = levelCounts st).
    { unfold splitStep. rewrite Hh. reflexivity. }
    repeat split.
    + rewrite E, H1, List.filter_app. simpl. rewrite Hh.
      now rewrite app_nil_r.
    + intros L. rewrite Ec, E. apply H2.
    + rewrite E. exact H3.
Qed.

Lemma splitLoop_inv lines : forall st done,
  splitInv st done -> splitInv (splitLoop st lines) (done ++ lines).
Proof.
  induction lines as [|line lines IH]; intros st done Hinv.
  - now rewrite app_nil_r.
  - unfold splitLoop. simpl. fold (splitLoop (splitStep st line) lines).
    replace (done ++ line :: lines) with ((done ++ [line]) ++ lines)
      by (now rewrite <- app_assoc).
    apply IH. now apply splitStep_inv.
Qed.

Lemma initSplit_inv : splitInv initSplit [].
Proof.
  repeat split; try reflexivity.
  intros i L X Hi. destruct i; discriminate Hi.
Qed.

Lemma finishSplit_keys st :
  map Heading (finishSplit st) = map Heading (allSections st)
  /\ map levelIndex (finishSplit st) = map levelIndex (allSections st).
Proof.
  unfold finishSplit, allSections.
  destruct (currentSection st); rewrite ?map_app, ?app_nil_r; split;
    reflexivity.
Qed.

Lemma parsedSections_inv content :
  map Heading (parsedSections content)
  = List.filter isHeading (sectionLines content)
  /\ ranked (map levelIndex (parsedSections content)).
Proof.
  unfold parsedSections.
  destruct (finishSplit_keys (splitLoop initSplit (sectionLines content)))
    as [-> ->].
  destruct (splitLoop_inv (sectionLines content) initSplit [] initSplit_inv)
    as (H1 & _ & H3).
  split; assumption.
Qed.

Lemma ranked_sections (secs : list Section_) :
  ranked (map levelIndex secs) ->
  forall i s, secs !! i = Some s ->
    Index s = Z.of_nat (sameLevelBefore i secs (Level s)).
Proof.
  intros Hr i s Hi.
  assert (Hm : map levelIndex secs !! i = Some (Level s, Index s)).
  { change (map levelIndex secs) with (levelIndex <$> secs).
    rewrite list_lookup_fmap, Hi. reflexivity. }
  rewrite (Hr i _ _ Hm). f_equal.
  unfold countLevel, sameLevelBefore.
  rewrite firstn_map, map_map. cbn [fst levelIndex].
  generalize (firstn i secs). intros l.
  induction l as [|t l IH]; [reflexivity|]. simpl.
  rewrite (Z.eqb_sym (Level s) (Level t)).
  destruct (Level t =? Level s); simpl; now rewrite IH.
Qed.

(** C6. In the document returned by [ParseDocument] the sections appear
    in source-line order (their headings are the heading lines after the
    metadata block, in order), and the [Index] of each section is the
    number of earlier sections of the same level, whatever the titles. *)
Theorem C6_sections_ordered_and_ranked content filePath noBlocks :
  let secs :=
    Sections (fst (ParseDocument yaml_Unmarshal content filePath noBlocks)) in
  map Heading secs = List.filter isHeading (sectionLines content)
  /\ forall (i : nat) (s : Section_),
       secs !! i = Some s ->
       Index s = Z.of_nat (sameLevelBefore i secs (Level s)).
Proof.
  cbv zeta. rewrite ParseDocument_unfold. cbn [fst Sections].
  destruct (parsedSections_inv content) as [H1 H2].
  assert (Hk : forall l : list Section_,
             map Heading (filterBody <$> l) = map Heading l
             /\ map levelIndex (filterBody <$> l) = map levelIndex l).
  { intros l. split; induction l as [|x l IH]; simpl; f_equal; auto. }
  destruct noBlocks.
  - destruct (Hk (parsedSections content)) as [E1 E2].
    split; [now rewrite E1|].
    apply ranked_sections. now rewrite E2.
  - split; [exact H1|]. now apply ranked_sections.
Qed.

(** Without a closing delimiter the frontmatter loop runs to the end of
    the input and collects every line. *)
Lemma frontmatterLoop_unclosed rest : forall acc,
  Forall (fun l => TrimSpace l <> "---") rest ->
  frontmatterLoop rest acc = (acc ++ rest, []).
Proof.
  induction rest as [|l rest IH]; intros acc Hall; simpl.
  - now rewrite app_nil_r.
  - inversion Hall as [|? ? Hl Hrest]; subst.
    destruct (String.eqb_spec (TrimSpace l) "---") as [E|_];
      [contradiction|].
    rewrite (IH _ Hrest), <- app_assoc. reflexivity.
Qed.

(** C4 (as the code has it). When the first line trims to the delimiter
    and no later line does, [ParseDocument] returns without error, every
    remaining line is collected into the metadata block, and the section
    list is empty: heading lines among the remaining lines open no
    section. *)
Theorem C4_unclosed_block_consumes_all content filePath noBlocks first rest :
  Split_nl content = first :: rest ->
  TrimSpace first = "---" ->
  Forall (fun l => TrimSpace l <> "---") rest ->
  snd (ParseDocument yaml_Unmarshal content filePath noBlocks) = None
  /\ fst (splitFrontmatter (Split_nl content)) = Some rest
  /\ Sections (fst (ParseDocument yaml_Unmarshal content filePath noBlocks))
     = [].
Proof.
  intros Hs Hf Hr.
  assert (E : splitFrontmatter (Split_nl content) = (Some rest, [])).
  { rewrite Hs. unfold splitFrontmatter. rewrite Hf.
    cbn [String.eqb Ascii.eqb Bool.eqb andb].
    now rewrite (frontmatterLoop_unclosed rest [] Hr). }
  rewrite ParseDocument_unfold. cbn [fst snd Sections].
  unfold parsedSections, sectionLines. rewrite E.
  repeat split. now destruct noBlocks.
Qed.

End Parser.

(** C3 (the code at a failing input). A line before the first heading is
    not dropped: it becomes the first line of the first section's body. *)
Theorem C3_text_before_first_heading_is_kept
    {Value : Type}
    (yaml_Unmarshal : string -> gmap string (option Value) ->
                      gmap string (option Value) * option error) :
  Sections (fst (ParseDocument yaml_Unmarshal
                   ("intro" +:+ nl +:+ "# A" +:+ nl +:+ "body")
                   "doc.md" false))
  = [mkSection 1 "A" "# A" ("intro" +:+ nl +:+ "body") 0].
Proof. reflexivity. Qed.

(** C4 fails as stated: the input opens a metadata block that is never
    closed and has the heading line [# A] after it, yet no section is
    returned. *)
Lemma C4_counterexample :
  let content := "---" +:+ nl +:+ "# A" +:+ nl +:+ "body" in
  Split_nl content = ["---"; "# A"; "body"]
  /\ TrimSpace "---" = "---"
  /\ TrimSpace "# A" <> "---"
  /\ TrimSpace "body" <> "---"
  /\ isHeading "# A" = true
  /\ (forall (Value : Type) (dec : Decoder Value),
        Sections (fst (ParseDocument dec content "doc.md" false)) = []).
Proof.
  cbv zeta. repeat split; try reflexivity; vm_compute; discriminate.
Qed.

Lemma C4_witness :
  let content := "---" +:+ nl +:+ "# A" +:+ nl +:+ "body" in
  Split_nl content = ["---"; "# A"; "body"]
  /\ (forall (Value : Type) (dec : Decoder Value),
        Sections (fst (ParseDocument dec content "doc.md" true)) = []).
Proof.
  cbv zeta. split; [reflexivity|]. intros Value dec.
  refine (proj2 (proj2 (C4_unclosed_block_consumes_all dec
            ("---" +:+ nl +:+ "# A" +:+ nl +:+ "body") "doc.md" true
            "---" ["# A"; "body"] _ _ _))).
  - reflexivity.
  - reflexivity.
  - repeat constructor; vm_compute; discriminate.
Defined.

(* ===================================================================== *)
(** * Lines, joins and trailing line feeds *)
(* ===================================================================== *)

Lemma noLF_cons c r : noLF (String c r) = true ->
  Ascii.eqb c LF = false /\ noLF r = true.
Proof.
  cbn [noLF]. intros H. apply andb_true_iff in H as [Hc Hr].
  split; [now destruct (Ascii.eqb c LF)|exact Hr].
Qed.

Lemma Split_nl_nonempty s : Split_nl s <> [].
Proof.
  destruct s as [|c s]; [discriminate|]. cbn [Split_nl].
  destruct (Ascii.eqb c LF); [discriminate|].
  destruct (Split_nl s); discriminate.
Qed.

Lemma Split_nl_app x y :
  noLF x = true -> Split_nl (x +:+ nl +:+ y) = x :: Split_nl y.
Proof.
  induction x as [|c x IH]; intros Hn.
  - rewrite append_nil_l. unfold nl. rewrite append_cons, append_nil_l.
    reflexivity.
  - apply noLF_cons in Hn as [Hc Hx].
    rewrite append_cons. cbn [Split_nl]. rewrite Hc, (IH Hx). reflexivity.
Qed.

Lemma Split_nl_single x : noLF x = true -> Split_nl x = [x].
Proof.
  induction x as [|c x IH]; intros Hn; [reflexivity|].
  apply noLF_cons in Hn as [Hc Hx].
  cbn [Split_nl]. rewrite Hc, (IH Hx). reflexivity.
Qed.

Lemma Split_nl_noLF s : Forall (fun l => noLF l = true) (Split_nl s).
Proof.
  induction s as [|c s IH]; [repeat constructor|].
  cbn [Split_nl]. destruct (Ascii.eqb c LF) eqn:Ec.
  - constructor; [reflexivity|exact IH].
  - destruct (Split_nl s) as [|h t]; [repeat constructor; cbn; now rewrite Ec|].
    inversion IH as [|? ? Hh Ht]; subst.
    constructor; [cbn [noLF]; now rewrite Ec, Hh|exact Ht].
Qed.

Lemma Join_nl_cons x y rest :
  Join_nl (x :: y :: rest) = x +:+ nl +:+ Join_nl (y :: rest).
Proof. reflexivity. Qed.

Lemma Join_Split s : Join_nl (Split_nl s) = s.
Proof.
  induction s as [|c s IH]; [reflexivity|].
  cbn [Split_nl]. destruct (Ascii.eqb_spec c LF) as [->|Hc].
  - pose proof (Split_nl_nonempty s) as Hne.
    destruct (Split_nl s) as [|h t]; [contradiction|].
    rewrite Join_nl_cons, IH. reflexivity.
  - pose proof (Split_nl_nonempty s) as Hne.
    destruct (Split_nl s) as [|h t]; [contradiction|].
    destruct t as [|h' t].
    + cbn [Join_nl] in *. now rewrite IH.
    + rewrite Join_nl_cons in *. rewrite append_cons, IH. reflexivity.
Qed.

Lemma Split_Join L :
  L <> [] -> Forall (fun l => noLF l = true) L -> Split_nl (Join_nl L) = L.
Proof.
  induction L as [|x L IH]; intros Hne Hall; [contradiction|].
  inversion Hall as [|? ? Hx HL]; subst.
  destruct L as [|y L].
  - cbn [Join_nl]. now apply Split_nl_single.
  - rewrite Join_nl_cons, (Split_nl_app _ _ Hx), IH; [reflexivity|discriminate|exact HL].
Qed.

Lemma TrimRight_nl_noLF x : noLF x = true -> TrimRight_nl x = x.
Proof.
  induction x as [|c x IH]; intros Hn; [reflexivity|].
  apply noLF_cons in Hn as [Hc Hx].
  cbn [TrimRight_nl]. rewrite (IH Hx), Hc. now destruct x.
Qed.

Lemma TrimRight_nl_app x y :
  noLF x = true ->
  TrimRight_nl (x +:+ nl +:+ y)
  = match TrimRight_nl y with
    | EmptyString => x
    | String c r => x +:+ nl +:+ String c r
    end.
Proof.
  induction x as [|c x IH]; intros Hn.
  - rewrite append_nil_l. unfold nl. rewrite append_cons, append_nil_l.
    cbn [TrimRight_nl]. destruct (TrimRight_nl y); reflexivity.
  - apply noLF_cons in Hn as [Hc Hx].
    rewrite append_cons. cbn [TrimRight_nl]. rewrite (IH Hx), Hc.
    destruct (TrimRight_nl y) as [|c' r].
    + now destruct x.
    + destruct x; reflexivity.
Qed.

Lemma stripEmpty_nonempty_Join L :
  stripEmpty L <> [] -> Join_nl (stripEmpty L) <> EmptyString.
Proof.
  induction L as [|x L IH]; [intros H; now contradiction H|].
  cbn [stripEmpty]. destruct (stripEmpty L) as [|y L'].
  - destruct x; [intros H; now contradiction H|discriminate].
  - intros _. rewrite Join_nl_cons. destruct x; discriminate.
Qed.

(** Trimming the trailing line feeds of a join drops the trailing empty
    lines. *)
Lemma TrimRight_nl_Join L :
  Forall (fun l => noLF l = true) L ->
  TrimRight_nl (Join_nl L) = Join_nl (stripEmpty L).
Proof.
  induction L as [|x L IH]; intros Hall; [reflexivity|].
  inversion Hall as [|? ? Hx HL]; subst.
  destruct L as [|y L].
  - cbn [Join_nl stripEmpty]. rewrite (TrimRight_nl_noLF _ Hx).
    now destruct x.
  - rewrite Join_nl_cons, (TrimRight_nl_app _ _ Hx), (IH HL).
    change (stripEmpty (x :: y :: L))
      with (match stripEmpty (y :: L) with
            | [] => match x with EmptyString => [] | _ => [x] end
            | rest' => x :: rest'
            end).
    pose proof (stripEmpty_nonempty_Join (y :: L)) as Hne.
    destruct (stripEmpty (y :: L)) as [|z L'].
    + cbn [Join_nl]. now destruct x.
    + rewrite Join_nl_cons.
      destruct (Join_nl (z :: L')) as [|c r] eqn:E;
        [exfalso; now apply Hne|reflexivity].
Qed.

Lemma unlines_Join K : unlines K = Join_nl (K ++ [EmptyString]).
Proof.
  induction K as [|x K IH]; [reflexivity|].
  cbn [unlines]. rewrite IH.
  destruct K as [|y K]; reflexivity.
Qed.

Lemma stripEmpty_snoc_empty K :
  stripEmpty (K ++ [EmptyString]) = stripEmpty K.
Proof.
  induction K as [|x K IH]; [reflexivity|].
  cbn [app stripEmpty]. now rewrite IH.
Qed.

Lemma stripEmpty_idem L : stripEmpty (stripEmpty L) = stripEmpty L.
Proof.
  induction L as [|x L IH]; [reflexivity|].
  cbn [stripEmpty]. destruct (stripEmpty L) as [|y L'] eqn:E.
  - now destruct x.
  - change (stripEmpty (x :: y :: L'))
      with (match stripEmpty (y :: L') with
            | [] => match x with EmptyString => [] | _ => [x] end
            | rest' => x :: rest'
            end).
    now rewrite IH.
Qed.

Lemma removeLastEmpty_stripEmpty L :
  removeLastEmpty (stripEmpty L) = stripEmpty L.
Proof.
  induction L as [|x L IH]; [reflexivity|].
  cbn [stripEmpty]. destruct (stripEmpty L) as [|y L'] eqn:E.
  - now destruct x.
  - change (removeLastEmpty (x :: y :: L'))
      with (x :: removeLastEmpty (y :: L')).
    now rewrite IH.
Qed.

Lemma stripEmpty_Forall (P : string -> Prop) L :
  Forall P L -> Forall P (stripEmpty L).
Proof.
  induction L as [|x L IH]; intros Hall; [constructor|].
  inversion Hall as [|? ? Hx HL]; subst.
  cbn [stripEmpty]. destruct (stripEmpty L) as [|y L'].
  - destruct x; repeat constructor; assumption.
  - constructor; [assumption|now apply IH].
Qed.

Lemma removeLastEmpty_Forall (P : string -> Prop) L :
  Forall P L -> Forall P (removeLastEmpty L).
Proof.
  induction L as [|x L IH]; intros Hall; [constructor|].
  inversion Hall as [|? ? Hx HL]; subst.
  destruct L as [|y L].
  - destruct x; repeat constructor; assumption.
  - change (removeLastEmpty (x :: y :: L))
      with (x :: removeLastEmpty (y :: L)).
    constructor; [assumption|now apply IH].
Qed.

(** [TrimRight] of the written lines, in terms of lines. *)
Lemma TrimRight_nl_unlines K :
  Forall (fun l => noLF l = true) K ->
  TrimRight_nl (unlines K) = Join_nl (stripEmpty K).
Proof.
  intros HK. rewrite unlines_Join, TrimRight_nl_Join.
  - now rewrite stripEmpty_snoc_empty.
  - apply Forall_app. split; [exact HK|repeat constructor].
Qed.

(** The scanner's raw lines of a join of lines without trailing empty
    line are those lines. *)
Lemma rawLines_Join M :
  Forall (fun l => noLF l = true) M ->
  removeLastEmpty M = M ->
  rawLines (Join_nl M) = M.
Proof.
  intros HM Hr. unfold rawLines.
  destruct M as [|x M]; [reflexivity|].
  rewrite Split_Join; [exact Hr|discriminate|exact HM].
Qed.

(* ===================================================================== *)
(** * The code-fence filter *)
(* ===================================================================== *)

Lemma removeLoop_kept tokens : forall inCodeBlock,
  removeLoop inCodeBlock tokens = unlines (keptLoop inCodeBlock tokens).
Proof.
  induction tokens as [|line rest IH]; intros b; [reflexivity|].
  cbn [removeLoop keptLoop]. unfold isFence.
  destruct (HasPrefix (TrimSpace line) "```"); [apply IH|].
  destruct (negb b); [|apply IH].
  cbn [unlines]. now rewrite IH.
Qed.

Lemma keptLoop_Forall (P : string -> Prop) tokens : forall inCodeBlock,
  Forall P tokens -> Forall P (keptLoop inCodeBlock tokens).
Proof.
  induction tokens as [|line rest IH]; intros b Hall; [constructor|].
  inversion Hall as [|? ? Hl Hrest]; subst. cbn [keptLoop].
  destruct (isFence line); [now apply IH|].
  destruct (negb b); [constructor; [assumption|now apply IH]|now apply IH].
Qed.

(** No kept token is a fence line. *)
Lemma keptLoop_not_fence tokens : forall inCodeBlock,
  Forall (fun l => isFence l = false) (keptLoop inCodeBlock tokens).
Proof.
  induction tokens as [|line rest IH]; intros b; [constructor|].
  cbn [keptLoop]. destruct (isFence line) eqn:E; [apply IH|].
  destruct (negb b); [constructor; [exact E|apply IH]|apply IH].
Qed.

(** Without fence lines the loop keeps every token. *)
Lemma keptLoop_no_fence tokens :
  Forall (fun l => isFence l = false) tokens ->
  keptLoop false tokens = tokens.
Proof.
  induction tokens as [|line rest IH]; intros Hall; [reflexivity|].
  inversion Hall as [|? ? Hl Hrest]; subst.
  cbn [keptLoop negb]. now rewrite Hl, (IH Hrest).
Qed.

Lemma takeShort_all L :
  Forall (fun l => isShort l = true) L -> takeShort L = L.
Proof.
  induction L as [|x L IH]; intros Hall; [reflexivity|].
  inversion Hall as [|? ? Hx HL]; subst. cbn [takeShort].
  unfold isShort in Hx. now rewrite Hx, (IH HL).
Qed.

Lemma dropCR_cons c d r :
  dropCR (String c (String d r)) = String c (dropCR (String d r)).
Proof. reflexivity. Qed.

Lemma dropCR_noLF l : noLF l = true -> noLF (dropCR l) = true.
Proof.
  induction l as [|c l IH]; intros Hn; [reflexivity|].
  apply noLF_cons in Hn as [Hc Hl].
  destruct l as [|d l].
  - cbn [dropCR]. destruct (Ascii.eqb c CR); [reflexivity|].
    cbn [noLF]. now rewrite Hc.
  - rewrite dropCR_cons. cbn [noLF]. rewrite Hc, (IH Hl). reflexivity.
Qed.

Lemma dropCR_length l : (String.length (dropCR l) <= String.length l)%nat.
Proof.
  induction l as [|c l IH]; [reflexivity|].
  destruct l as [|d l].
  - cbn [dropCR]. destruct (Ascii.eqb c CR); cbn; lia.
  - rewrite dropCR_cons. cbn [String.length] in *. lia.
Qed.

Lemma dropCR_short l : isShort l = true -> isShort (dropCR l) = true.
Proof.
  unfold isShort. intros H. apply Nat.ltb_lt in H. apply Nat.ltb_lt.
  pose proof (dropCR_length l). lia.
Qed.

Lemma dropCR_id l : endsWithCR l = false -> dropCR l = l.
Proof.
  induction l as [|c l IH]; intros He; [reflexivity|].
  destruct l as [|d l].
  - cbn [endsWithCR] in He. cbn [dropCR]. now rewrite He.
  - rewrite dropCR_cons. f_equal. apply IH. exact He.
Qed.

(** One carriage return dropped from a line that does not end with two
    leaves a line that does not end with one. *)
Lemma dropCR_endsWithCR l :
  endsWithTwoCR l = false -> endsWithCR (dropCR l) = false.
Proof.
  induction l as [|c l IH]; intros He; [reflexivity|].
  destruct l as [|d l].
  - cbn [dropCR]. destruct (Ascii.eqb c CR) eqn:Ec; [reflexivity|].
    cbn [endsWithCR]. exact Ec.
  - rewrite dropCR_cons. destruct l as [|e l].
    + cbn [endsWithTwoCR] in He. cbn [dropCR].
      destruct (Ascii.eqb d CR) eqn:Ed.
      * cbn [endsWithCR]. now destruct (Ascii.eqb c CR).
      * cbn [endsWithCR]. exact Ed.
    + assert (He' : endsWithTwoCR (String d (String e l)) = false)
        by exact He.
      specialize (IH He'). rewrite dropCR_cons in IH |- *.
      exact IH.
Qed.

Lemma map_dropCR_id L :
  Forall (fun l => endsWithCR l = false) L -> dropCR <$> L = L.
Proof.
  induction L as [|x L IH]; intros Hall; [reflexivity|].
  inversion Hall as [|? ? Hx HL]; subst.
  cbn [fmap list_fmap]. now rewrite (dropCR_id _ Hx), (IH HL).
Qed.

(** A line the filter reproduces: no line feed inside, short enough for
    the scanner, not ending in a carriage return, not a fence line. *)
Lemma removeCodeBlocks_Join M :
  Forall (fun l => noLF l = true) M ->
  Forall (fun l => isShort l = true) M ->
  Forall (fun l => endsWithCR l = false) M ->
  Forall (fun l => isFence l = false) M ->
  removeLastEmpty M = M ->
  removeCodeBlocks (Join_nl M) = Join_nl (stripEmpty M).
Proof.
  intros Hn Hs Hc Hf Hr. unfold removeCodeBlocks, ScanTokens.
  rewrite (rawLines_Join M Hn Hr), (takeShort_all M Hs), (map_dropCR_id M Hc).
  rewrite removeLoop_kept, (keptLoop_no_fence M Hf).
  now apply TrimRight_nl_unlines.
Qed.

(** The scanner's tokens hold no line feed and are short. *)
Lemma ScanTokens_props text (P : string -> Prop) :
  Forall (fun l => P (dropCR l)) (Split_nl text) ->
  Forall (fun t => noLF t = true /\ isShort t = true /\ P t) (ScanTokens text).
Proof.
  intros HP. unfold ScanTokens, rawLines.
  assert (H : Forall (fun l => noLF l = true /\ P (dropCR l))
                (removeLastEmpty (Split_nl text))).
  { apply removeLastEmpty_Forall.
    pose proof (Split_nl_noLF text) as Hn.
    induction Hn as [|x L Hx HL IH]; [constructor|].
    inversion HP; subst. constructor; [split; assumption|now apply IH]. }
  generalize dependent (removeLastEmpty (Split_nl text)). intros L HL.
  induction L as [|x L IH]; [constructor|].
  inversion HL as [|? ? [Hx Hp] HL']; subst. cbn [takeShort].
  destruct (String.length x <? MaxScanTokenSize)%nat eqn:E; [|constructor].
  cbn [fmap list_fmap]. constructor; [|now apply IH].
  repeat split; [now apply dropCR_noLF|now apply dropCR_short|exact Hp].
Qed.

(** The filter's output, in terms of the kept tokens. *)
Lemma removeCodeBlocks_kept text :
  removeCodeBlocks text
  = Join_nl (stripEmpty (keptLoop false (ScanTokens text))).
Proof.
  unfold removeCodeBlocks. rewrite removeLoop_kept.
  apply TrimRight_nl_unlines.
  apply keptLoop_Forall.
  pose proof (ScanTokens_props text (fun _ => True)) as H.
  eapply List.Forall_impl; [|apply H].
  - intros a (Ha & _). exact Ha.
  - apply Forall_forall. intros; exact I.
Qed.

(** A text without trailing line feed, whose lines are each shorter than
    the scanner's largest token, do not end in a carriage return and are
    not fence lines, is left as it is. *)
Lemma removeCodeBlocks_identity body :
  TrimRight_nl body = body ->
  Forall (fun l => isFence l = false) (Split_nl body) ->
  Forall (fun l => isShort l = true) (Split_nl body) ->
  Forall (fun l => endsWithCR l = false) (Split_nl body) ->
  removeCodeBlocks body = body.
Proof.
  intros Ht Hf Hs Hc.
  pose proof (Split_nl_noLF body) as Hn.
  assert (Eb : body = Join_nl (stripEmpty (Split_nl body))).
  { rewrite <- (TrimRight_nl_Join _ Hn), Join_Split. now symmetry. }
  rewrite Eb at 1.
  rewrite removeCodeBlocks_Join;
    try (apply stripEmpty_Forall; assumption).
  - rewrite stripEmpty_idem. now symmetry.
  - apply removeLastEmpty_stripEmpty.
Qed.

(** C10 (as the code has it). For a text none of whose lines ends with two
    carriage returns, filtering the filter's output changes nothing. *)
Theorem C10_filter_idempotent s :
  Forall (fun l => endsWithTwoCR l = false) (Split_nl s) ->
  removeCodeBlocks (removeCodeBlocks s) = removeCodeBlocks s.
Proof.
  intros Hc.
  assert (HT : Forall (fun t => noLF t = true /\ isShort t = true
                                /\ endsWithCR t = false) (ScanTokens s)).
  { apply (ScanTokens_props s (fun t => endsWithCR t = false)).
    eapply List.Forall_impl; [|exact Hc].
    intros l Hl. now apply dropCR_endsWithCR. }
  set (K := keptLoop false (ScanTokens s)).
  assert (HK : Forall (fun t => noLF t = true /\ isShort t = true
                                /\ endsWithCR t = false) (stripEmpty K)).
  { apply stripEmpty_Forall. now apply keptLoop_Forall. }
  assert (HF : Forall (fun l => isFence l = false) (stripEmpty K)).
  { apply stripEmpty_Forall. apply keptLoop_not_fence. }
  rewrite (removeCodeBlocks_kept s). fold K.
  rewrite removeCodeBlocks_Join.
  - now rewrite stripEmpty_idem.
  - eapply List.Forall_impl; [|exact HK]. now intros a (?&?&?).
  - eapply List.Forall_impl; [|exact HK]. now intros a (?&?&?).
  - eapply List.Forall_impl; [|exact HK]. now intros a (?&?&?).
  - exact HF.
  - apply removeLastEmpty_stripEmpty.
Qed.

(* ===================================================================== *)
(** * The properties at concrete inputs *)
(* ===================================================================== *)

(** The query [#] on the example document: three records, in document
    order, one per h1 section. *)
Lemma C1_witness :
  isSectionQuery (fst (ParseQuery "#"))
  /\ q_ExplicitIndex (fst (ParseQuery "#")) = false
  /\ ExecuteQuery showString exampleDoc (fst (ParseQuery "#")) noProjection
     = [ mkResult "notes.md" "#" "# One" "first";
         mkResult "notes.md" "#" "# Two" "second";
         mkResult "notes.md" "#" "# Three" "third" ].
Proof.
  assert (H1 : isSectionQuery (fst (ParseQuery "#")))
    by (vm_compute; discriminate).
  assert (H2 : q_ExplicitIndex (fst (ParseQuery "#")) = false)
    by reflexivity.
  split; [exact H1|]. split; [exact H2|].
  exact (proj1 (proj2 (C1_implicit_index_returns_all showString exampleDoc
                         (fst (ParseQuery "#")) noProjection H1 H2))).
Defined.

(** The query [##Notes[1]] on the example document: the second section
    titled Notes, whose stored index among the h2 sections is 2. *)
Lemma C2_witness :
  isSectionQuery (fst (ParseQuery "##Notes[1]"))
  /\ q_ExplicitIndex (fst (ParseQuery "##Notes[1]")) = true
  /\ q_Index (fst (ParseQuery "##Notes[1]")) = Z.of_nat 1
  /\ ExecuteQuery showString exampleDoc (fst (ParseQuery "##Notes[1]"))
       noProjection
     = [ mkResult "notes.md" "##Notes[1]" "## Notes" "n1" ].
Proof.
  assert (H1 : isSectionQuery (fst (ParseQuery "##Notes[1]")))
    by (vm_compute; discriminate).
  assert (H2 : q_ExplicitIndex (fst (ParseQuery "##Notes[1]")) = true)
    by reflexivity.
  assert (H3 : q_Index (fst (ParseQuery "##Notes[1]")) = Z.of_nat 1)
    by reflexivity.
  split; [exact H1|]. split; [exact H2|]. split; [exact H3|].
  exact (C2_explicit_index_selects_rank showString exampleDoc
           (fst (ParseQuery "##Notes[1]")) noProjection 1 H1 H2 H3).
Defined.

(** C5 fails as stated: with the body-only projection the record for a
    field present with a null value and the record for an absent field
    are equal. *)
Lemma C5_counterexample :
  q_Type (fst (ParseQuery "draft")) = "frontmatter"
  /\ Frontmatter nullDoc !! q_Field (fst (ParseQuery "draft")) = Some None
  /\ Frontmatter absentDoc !! q_Field (fst (ParseQuery "draft")) = None
  /\ ExecuteQuery showString nullDoc (fst (ParseQuery "draft")) bodyOnly
     = ExecuteQuery showString absentDoc (fst (ParseQuery "draft")) bodyOnly.
Proof. repeat split; vm_compute; reflexivity. Qed.

Lemma C5_witness :
  q_Type (fst (ParseQuery "draft")) = "frontmatter"
  /\ FilePath nullDoc = FilePath absentDoc
  /\ Frontmatter nullDoc !! q_Field (fst (ParseQuery "draft")) = Some None
  /\ Frontmatter absentDoc !! q_Field (fst (ParseQuery "draft")) = None
  /\ ExecuteQuery showString nullDoc (fst (ParseQuery "draft")) noProjection
     = [ mkResult "notes.md" "draft" "draft" EmptyString ]
  /\ ExecuteQuery showString absentDoc (fst (ParseQuery "draft")) noProjection
     = [ mkResult "notes.md" "draft" EmptyString EmptyString ].
Proof.
  assert (H1 : q_Type (fst (ParseQuery "draft")) = "frontmatter")
    by reflexivity.
  assert (H2 : FilePath nullDoc = FilePath absentDoc) by reflexivity.
  assert (H3 : Frontmatter nullDoc !! q_Field (fst (ParseQuery "draft"))
               = Some None) by (vm_compute; reflexivity).
  assert (H4 : Frontmatter absentDoc !! q_Field (fst (ParseQuery "draft"))
               = None) by (vm_compute; reflexivity).
  split; [exact H1|]. split; [exact H2|]. split; [exact H3|].
  split; [exact H4|].
  pose proof (C5_null_versus_absent showString nullDoc absentDoc
                (fst (ParseQuery "draft")) noProjection H1 H2 H3 H4)
    as (E1 & E2 & _).
  split; [exact E1|exact E2].
Defined.

(** C10 fails as stated: on the text [a] followed by two carriage returns
    each pass of the filter drops one of them. *)
Lemma C10_counterexample :
  removeCodeBlocks (String "a" (String CR (String CR EmptyString)))
  = String "a" (String CR EmptyString)
  /\ removeCodeBlocks
       (removeCodeBlocks (String "a" (String CR (String CR EmptyString))))
     = "a"
  /\ removeCodeBlocks
       (removeCodeBlocks (String "a" (String CR (String CR EmptyString))))
     <> removeCodeBlocks (String "a" (String CR (String CR EmptyString))).
Proof.
  split; [reflexivity|]. split; [reflexivity|].
  vm_compute. discriminate.
Qed.

Lemma C10_witness :
  removeCodeBlocks
    (removeCodeBlocks
       ("a" +:+ nl +:+ "```go" +:+ nl +:+ "x" +:+ nl +:+ "```" +:+ nl +:+ "b"))
  = removeCodeBlocks
      ("a" +:+ nl +:+ "```go" +:+ nl +:+ "x" +:+ nl +:+ "```" +:+ nl +:+ "b").
Proof.
  apply C10_filter_idempotent.
  repeat constructor.
Defined.

(* ===================================================================== *)
(** * More on the query parser *)
(* ===================================================================== *)

Lemma HasPrefix_marker (s : string) :
  HasPrefix s "#" = true -> exists r, s = String "#"%char r.
Proof.
  unfold HasPrefix. destruct s as [|c r]; [discriminate|]. cbn [String.prefix].
  destruct (ascii_dec "#" c) as [<-|]; [|discriminate].
  intros _. now exists r.
Qed.

(** What the tail of the index pattern accepts. *)
Lemma matchDigitsClose_Some (s ds : string) :
  matchDigitsClose s = Some ds ->
  s = ds +:+ "]" /\ allDigits ds = true /\ ds <> EmptyString.
Proof.
  revert ds. induction s as [|c s IH]; intros ds H; [discriminate|].
  cbn [matchDigitsClose] in H. destruct (isDigit c) eqn:Ec; [|discriminate].
  destruct (String.eqb_spec s "]") as [->|Hne].
  - injection H as <-. repeat split; [cbn; now rewrite Ec|discriminate].
  - destruct (matchDigitsClose s) as [ds'|]; [|discriminate].
    injection H as <-. destruct (IH ds' eq_refl) as (-> & Hd & _).
    repeat split; [cbn [allDigits]; now rewrite Ec, Hd|discriminate].
Qed.

Lemma matchDigitsClose_digits (ds : string) :
  allDigits ds = true -> ds <> EmptyString ->
  matchDigitsClose (ds +:+ "]") = Some ds.
Proof.
  induction ds as [|c ds IH]; intros Hd Hne; [now contradiction Hne|].
  cbn [allDigits] in Hd. apply andb_true_iff in Hd as [Hc Hd].
  rewrite append_cons. cbn [matchDigitsClose]. rewrite Hc.
  destruct ds as [|d ds]; [reflexivity|].
  rewrite IH by (assumption || discriminate).
  rewrite append_cons. cbn [String.eqb].
  destruct (Ascii.eqb d "]"); [|reflexivity].
  destruct ds; reflexivity.
Qed.

(** An opening bracket ahead: the tail of the pattern does not match. *)
Lemma matchDigitsClose_bracket_ahead (r ds : string) :
  matchDigitsClose (r +:+ "[" +:+ ds +:+ "]") = None.
Proof.
  induction r as [|c r IH]; [reflexivity|].
  rewrite append_cons. cbn [matchDigitsClose].
  destruct (isDigit c); [|reflexivity].
  rewrite IH.
  destruct r as [|c' r]; [reflexivity|].
  rewrite append_cons. cbn [String.eqb].
  destruct (Ascii.eqb c' "]"); [|reflexivity].
  destruct r; reflexivity.
Qed.

Lemma indexPattern_Some (rest p ds : string) :
  indexPattern rest = Some (p, ds) ->
  rest = p +:+ "[" +:+ ds +:+ "]"
  /\ noLF p = true /\ allDigits ds = true /\ ds <> EmptyString.
Proof.
  revert p. induction rest as [|c rest IH]; intros p H; [discriminate|].
  cbn [indexPattern] in H.
  destruct (Ascii.eqb_spec c "[") as [->|Hc].
  - destruct (matchDigitsClose rest) as [ds'|] eqn:Em.
    + injection H as <- <-.
      destruct (matchDigitsClose_Some _ _ Em) as (-> & Hd & Hne).
      repeat split; assumption.
    + cbn in H. destruct (indexPattern rest) as [[p' ds']|]; [|discriminate].
      injection H as <- <-.
      destruct (IH p' eq_refl) as (-> & Hn & Hd & Hne).
      repeat split; assumption.
  - destruct (Ascii.eqb c LF) eqn:El; [discriminate|].
    destruct (indexPattern rest) as [[p' ds']|]; [|discriminate].
    injection H as <- <-.
    destruct (IH p' eq_refl) as (-> & Hn & Hd & Hne).
    repeat split; try assumption. cbn [noLF]. now rewrite El, Hn.
Qed.

Lemma indexPattern_suffix (p ds : string) :
  noLF p = true -> allDigits ds = true -> ds <> EmptyString ->
  indexPattern (p +:+ "[" +:+ ds +:+ "]") = Some (p, ds).
Proof.
  intros Hn Hd Hne. induction p as [|c p IH].
  - rewrite append_nil_l.
    change ("[" +:+ ds +:+ "]") with (String "["%char (ds +:+ "]")).
    cbn [indexPattern]. rewrite Ascii.eqb_refl.
    now rewrite matchDigitsClose_digits.
  - apply noLF_cons in Hn as [Hc Hp].
    rewrite append_cons. cbn [indexPattern].
    rewrite matchDigitsClose_bracket_ahead, Hc, (IH Hp).
    now destruct (Ascii.eqb c "[").
Qed.

Lemma digitsValue_nonneg (s : string) : forall acc,
  allDigits s = true -> 0 <= acc -> 0 <= digitsValue acc s.
Proof.
  induction s as [|c s IH]; intros acc Hd Hacc; [exact Hacc|].
  cbn [allDigits] in Hd. apply andb_true_iff in Hd as [Hc Hd].
  cbn [digitsValue]. apply IH; [exact Hd|].
  unfold isDigit, in_range in Hc. apply andb_true_iff in Hc as [Hlo _].
  apply Z.leb_le in Hlo. lia.
Qed.

(** X1. A query string that does not start with the marker is a
    frontmatter query on the whole, untrimmed string, and its canonical
    rendering is the string itself. *)
Theorem X1_frontmatter_query_round_trip (queryStr : string) :
  HasPrefix queryStr "#" = false ->
  ParseQuery queryStr
  = (mkQuery "frontmatter" 0 EmptyString 0 false queryStr, None)
  /\ formatQuery (fst (ParseQuery queryStr)) = queryStr.
Proof.
  intros H. unfold ParseQuery. rewrite H. split; reflexivity.
Qed.

Lemma X1_witness :
  HasPrefix " date " "#" = false
  /\ formatQuery (fst (ParseQuery " date ")) = " date ".
Proof.
  split; [reflexivity|].
  exact (proj2 (X1_frontmatter_query_round_trip " date " eq_refl)).
Defined.

(** X2. Every query string that starts with the marker parses, without
    error, to a section query whose level is the length of the leading
    marker run and at least 1, and whose index lies between 0 and the
    largest [int]; without a matching bracket suffix the index is 0. *)
Theorem X2_section_query_level_and_index (queryStr : string) :
  HasPrefix queryStr "#" = true ->
  let q := fst (ParseQuery queryStr) in
  snd (ParseQuery queryStr) = None
  /\ q_Type q = "section"
  /\ q_Level q = Z.of_nat (countMarkers queryStr)
  /\ 1 <= q_Level q
  /\ 0 <= q_Index q <= MaxInt
  /\ (q_ExplicitIndex q = false -> q_Index q = 0).
Proof.
  intros H. cbv zeta. unfold ParseQuery. rewrite H.
  destruct (HasPrefix_marker _ H) as [r ->].
  assert (Hl : 1 <= Z.of_nat (countMarkers (String "#"%char r)))
    by (cbn [countMarkers Ascii.eqb Bool.eqb]; lia).
  destruct (indexPattern _) as [[m1 m2]|] eqn:E; cbn [fst snd q_Type q_Level
    q_Index q_ExplicitIndex].
  - destruct (indexPattern_Some _ _ _ E) as (_ & _ & Hd & _).
    repeat split; try assumption; try discriminate.
    + unfold Atoi. apply Z.min_glb; [|unfold MaxInt; lia].
      now apply digitsValue_nonneg.
    + unfold Atoi. apply Z.le_min_r.
  - repeat split; try assumption; unfold MaxInt; lia.
Qed.

Lemma X2_witness :
  HasPrefix "###Notes[12]" "#" = true
  /\ q_Level (fst (ParseQuery "###Notes[12]")) = 3
  /\ 0 <= q_Index (fst (ParseQuery "###Notes[12]")) <= MaxInt.
Proof.
  split; [reflexivity|].
  pose proof (X2_section_query_level_and_index "###Notes[12]" eq_refl)
    as (_ & _ & Hl & _ & Hi & _).
  split; [exact Hl|exact Hi].
Defined.

(** X3. The bracket suffix is recognised exactly when the text after the
    marker run is a part without line feed, an opening bracket, one or
    more ASCII digits and a closing bracket at the very end; the title is
    then that part trimmed and the index the value of the digits. *)
Theorem X3_bracket_suffix_recognised (queryStr : string) :
  HasPrefix queryStr "#" = true ->
  let rest := drop (countMarkers queryStr) queryStr in
  let q := fst (ParseQuery queryStr) in
  (q_ExplicitIndex q = true <->
   exists p ds, rest = p +:+ "[" +:+ ds +:+ "]" /\ noLF p = true
                /\ allDigits ds = true /\ ds <> EmptyString)
  /\ (forall p ds,
        rest = p +:+ "[" +:+ ds +:+ "]" -> noLF p = true ->
        allDigits ds = true -> ds <> EmptyString ->
        q_Title q = TrimSpace p /\ q_Index q = Atoi ds)
  /\ (q_ExplicitIndex q = false -> q_Title q = TrimSpace rest).
Proof.
  intros H. cbv zeta. unfold ParseQuery. rewrite H.
  destruct (indexPattern _) as [[m1 m2]|] eqn:E;
    cbn [fst q_Title q_Index q_ExplicitIndex].
  - destruct (indexPattern_Some _ _ _ E) as (Er & Hn & Hd & Hne).
    split; [|split].
    + split; [intros _; now exists m1, m2|reflexivity].
    + intros p ds Ep Hp Hds Hdne.
      rewrite Ep, (indexPattern_suffix p ds Hp Hds Hdne) in E.
      injection E as <- <-. now split.
    + discriminate.
  - split; [|split].
    + split; [discriminate|].
      intros (p & ds & Ep & Hp & Hds & Hdne).
      rewrite Ep, (indexPattern_suffix p ds Hp Hds Hdne) in E. discriminate.
    + intros p ds Ep Hp Hds Hdne.
      rewrite Ep, (indexPattern_suffix p ds Hp Hds Hdne) in E. discriminate.
    + reflexivity.
Qed.

Lemma X3_witness :
  HasPrefix "## Notes [12]" "#" = true
  /\ q_ExplicitIndex (fst (ParseQuery "## Notes [12]")) = true
  /\ q_Title (fst (ParseQuery "## Notes [12]")) = "Notes"
  /\ q_Index (fst (ParseQuery "## Notes [12]")) = 12.
Proof.
  split; [reflexivity|].
  pose proof (X3_bracket_suffix_recognised "## Notes [12]" eq_refl)
    as (He & Ht & _).
  split.
  - apply He. exists " Notes ", "12". repeat split. discriminate.
  - apply (Ht " Notes " "12"); try reflexivity. discriminate.
Defined.

(* ===================================================================== *)
(** * More on the query engine *)
(* ===================================================================== *)

Section QueryEngineMore.

Context {Value : Type} (Sprintf_v : Value -> string).
Implicit Types (doc : Document Value) (query : Query) (opts : Options).

(** A property of the placeholder and of every record built from a
    section holds of every record the section loop returns. *)
Lemma sectionLoop_Forall (P : QueryResult -> Prop) doc query opts :
  P (emptyResult doc query) ->
  (forall s, P (sectionResult doc query opts s)) ->
  forall secs matchIndex results,
    Forall P results ->
    Forall P (sectionLoop doc query opts secs matchIndex results).
Proof.
  intros He Hs. induction secs as [|s secs IH]; intros mi res Hres.
  - cbn [sectionLoop].
    destruct (q_ExplicitIndex query && (length res =? 0)%nat);
      [repeat constructor; exact He|exact Hres].
  - cbn [sectionLoop]. destruct (negb (sectionMatches query s)); [now apply IH|].
    destruct (q_ExplicitIndex query).
    + destruct (mi =? q_Index query); [repeat constructor; apply Hs|now apply IH].
    + apply IH. apply Forall_app. split; [exact Hres|repeat constructor; apply Hs].
Qed.

Lemma ExecuteQuery_Forall (P : QueryResult -> Prop) doc query opts :
  P (emptyResult doc query) ->
  (forall s, P (sectionResult doc query opts s)) ->
  (forall value,
     Frontmatter doc !! q_Field query = Some value ->
     P (mkResult (FilePath doc) (formatQuery query)
          (if negb (BodyOnly opts) && negb (RawOutput opts)
           then q_Field query else EmptyString)
          (if negb (HeadOnly opts)
           then match value with Some v => Sprintf_v v | None => EmptyString end
           else EmptyString))) ->
  Forall P (ExecuteQuery Sprintf_v doc query opts).
Proof.
  intros He Hs Hf. unfold ExecuteQuery.
  destruct (String.eqb (q_Type query) "frontmatter").
  - destruct (Frontmatter doc !! q_Field query) as [value|] eqn:E;
      repeat constructor; [now apply Hf|exact He].
  - apply sectionLoop_Forall; [exact He|exact Hs|constructor].
Qed.

Lemma sectionLoop_explicit_length doc query opts secs :
  q_ExplicitIndex query = true ->
  forall matchIndex,
    length (sectionLoop doc query opts secs matchIndex []) = 1%nat.
Proof.
  intros Hex. induction secs as [|s secs IH]; intros mi; cbn [sectionLoop].
  - now rewrite Hex.
  - rewrite Hex. destruct (negb (sectionMatches query s)); [apply IH|].
    destruct (mi =? q_Index query); [reflexivity|apply IH].
Qed.

(** X4. A frontmatter query, and a section query with an explicit index
    (whatever the index, a negative one included), always yields exactly
    one record. *)
Theorem X4_single_record_queries doc query opts :
  q_Type query = "frontmatter" \/ q_ExplicitIndex query = true ->
  length (ExecuteQuery Sprintf_v doc query opts) = 1%nat.
Proof.
  intros H. unfold ExecuteQuery.
  destruct (String.eqb_spec (q_Type query) "frontmatter") as [E|E].
  - now destruct (Frontmatter doc !! q_Field query).
  - destruct H as [H|H]; [contradiction|].
    now apply sectionLoop_explicit_length.
Qed.

(** X5. Every record returned for a document and a query is labelled with
    the document's file path and the canonical rendering of the query. *)
Theorem X5_records_are_labelled doc query opts :
  Forall (fun r => r_File r = FilePath doc /\ r_Query r = formatQuery query)
    (ExecuteQuery Sprintf_v doc query opts).
Proof.
  apply ExecuteQuery_Forall; intros; split; reflexivity.
Qed.

(** X6. The projection is applied by the engine to every record of every
    kind of query: with head-only no record has a body, with body-only no
    record has a heading, and in raw mode a frontmatter record has no
    heading. *)
Theorem X6_projection_applies_to_every_record doc query opts :
  (HeadOnly opts = true ->
   Forall (fun r => r_Body r = EmptyString)
     (ExecuteQuery Sprintf_v doc query opts))
  /\ (BodyOnly opts = true ->
      Forall (fun r => r_Heading r = EmptyString)
        (ExecuteQuery Sprintf_v doc query opts))
  /\ (RawOutput opts = true -> q_Type query = "frontmatter" ->
      Forall (fun r => r_Heading r = EmptyString)
        (ExecuteQuery Sprintf_v doc query opts)).
Proof.
  split; [|split].
  - intros H. apply ExecuteQuery_Forall; intros; cbn; now rewrite ?H.
  - intros H. apply ExecuteQuery_Forall; intros; cbn; now rewrite ?H.
  - intros H Ht. unfold ExecuteQuery. rewrite Ht. cbn [String.eqb Ascii.eqb Bool.eqb].
    destruct (Frontmatter doc !! q_Field query); repeat constructor.
    cbn. rewrite H. now destruct (BodyOnly opts).
Qed.

(** X7. An explicit index [N] selects the [N]-th record of what the same
    query without index returns (only the label differs), and yields the
    placeholder when that list has no [N]-th record. *)
Theorem X7_explicit_index_picks_from_implicit doc query query' opts (N : nat) :
  isSectionQuery query -> isSectionQuery query' ->
  q_Level query' = q_Level query ->
  q_Title query' = q_Title query ->
  q_ExplicitIndex query = false ->
  q_ExplicitIndex query' = true ->
  q_Index query' = Z.of_nat N ->
  ExecuteQuery Sprintf_v doc query' opts
  = match nth_error (ExecuteQuery Sprintf_v doc query opts) N with
    | Some r => [relabel (formatQuery query') r]
    | None => [mkResult (FilePath doc) (formatQuery query')
                 EmptyString EmptyString]
    end.
Proof.
  intros Hs Hs' Hl Ht Hi He HN.
  rewrite (section_query_dispatch Sprintf_v doc query opts Hs).
  rewrite (section_query_dispatch Sprintf_v doc query' opts Hs').
  rewrite (sectionLoop_implicit doc query opts (Sections doc) Hi).
  rewrite (sectionLoop_explicit doc query' opts (Sections doc) He N 0) by lia.
  cbn [app].
  assert (Ef : List.filter (passesFilters query') (Sections doc)
               = List.filter (passesFilters query) (Sections doc)).
  { apply List.filter_ext. intros s. unfold passesFilters. now rewrite Hl, Ht. }
  rewrite Ef, nth_error_map.
  destruct (nth_error _ N); reflexivity.
Qed.

End QueryEngineMore.

Lemma X4_witness :
  length (ExecuteQuery showString exampleDoc (fst (ParseQuery "##Missing[0]"))
            noProjection) = 1%nat.
Proof.
  apply X4_single_record_queries. right. reflexivity.
Defined.

Lemma X6_witness :
  Forall (fun r => r_Heading r = EmptyString)
    (ExecuteQuery showString exampleDoc (fst (ParseQuery "##")) bodyOnly).
Proof.
  exact (proj1 (proj2 (X6_projection_applies_to_every_record showString
                         exampleDoc (fst (ParseQuery "##")) bodyOnly))
           eq_refl).
Defined.

Lemma X7_witness :
  ExecuteQuery showString exampleDoc (fst (ParseQuery "##Notes[1]"))
    noProjection
  = [ mkResult "notes.md" "##Notes[1]" "## Notes" "n1" ].
Proof.
  refine (X7_explicit_index_picks_from_implicit showString exampleDoc
            (fst (ParseQuery "##Notes")) (fst (ParseQuery "##Notes[1]"))
            noProjection 1 _ _ eq_refl eq_refl eq_refl eq_refl eq_refl);
    vm_compute; discriminate.
Defined.

(* ===================================================================== *)
(** * More on the metadata block and the section splitter *)
(* ===================================================================== *)

Lemma TrimRight_nl_idem (s : string) :
  TrimRight_nl (TrimRight_nl s) = TrimRight_nl s.
Proof.
  pose proof (Split_nl_noLF s) as Hn.
  rewrite <- (Join_Split s) at 1 2.
  rewrite (TrimRight_nl_Join _ Hn).
  rewrite TrimRight_nl_Join by (now apply stripEmpty_Forall).
  now rewrite stripEmpty_idem.
Qed.

Lemma isHeading_level (line : string) :
  isHeading line = true -> (1 <= countMarkers (TrimSpace line))%nat.
Proof.
  unfold isHeading. intros H. destruct (HasPrefix_marker _ H) as [r ->].
  cbn [countMarkers Ascii.eqb Bool.eqb]. lia.
Qed.

(** With a closing delimiter the frontmatter loop stops right after it. *)
Lemma frontmatterLoop_closed block closing rest : forall acc,
  Forall (fun l => TrimSpace l <> "---") block ->
  TrimSpace closing = "---" ->
  frontmatterLoop (block ++ closing :: rest) acc = (acc ++ block, rest).
Proof.
  induction block as [|l block IH]; intros acc Hall Hc; simpl.
  - rewrite Hc. cbn. now rewrite app_nil_r.
  - inversion Hall as [|? ? Hl Hblock]; subst.
    destruct (String.eqb_spec (TrimSpace l) "---") as [E|_];
      [contradiction|].
    rewrite (IH _ Hblock Hc), <- app_assoc. reflexivity.
Qed.

Section ParserMore.

Context {Value : Type}.
Variable yaml_Unmarshal :
  string -> gmap string (option Value) ->
  gmap string (option Value) * option error.

(** A property of the fields other than the body that holds of every
    section the loop opens holds of every section of the result. *)
Lemma splitStep_opens (P : Section_ -> Prop) st line :
  (forall s body, P s -> P (closeSection s body)) ->
  (forall level title index,
     isHeading line = true ->
     level = countMarkers (TrimSpace line) ->
     title = TrimSpace (drop level (TrimSpace line)) ->
     P (mkSection (Z.of_nat level) title line EmptyString index)) ->
  Forall P (allSections st) -> Forall P (allSections (splitStep st line)).
Proof.
  intros Hclose Hopen Hst. unfold splitStep, allSections in *.
  destruct (isHeading line) eqn:Hh; [|exact Hst].
  destruct (currentSection st) as [cur|]; cbn -[TrimSpace].
  - apply Forall_app in Hst as [Hsecs Hcur].
    inversion Hcur as [|? ? Hc _]; subst.
    repeat (apply Forall_app; split); try assumption;
      repeat constructor; [now apply Hclose|now apply Hopen].
  - apply Forall_app; split; [|repeat constructor; now apply Hopen].
    now rewrite app_nil_r in Hst.
Qed.

Lemma parsedSections_Forall (P : Section_ -> Prop) content :
  (forall s body, P s -> P (closeSection s body)) ->
  (forall line level title index,
     isHeading line = true ->
     level = countMarkers (TrimSpace line) ->
     title = TrimSpace (drop level (TrimSpace line)) ->
     P (mkSection (Z.of_nat level) title line EmptyString index)) ->
  Forall P (parsedSections content).
Proof.
  intros Hclose Hopen. unfold parsedSections.
  assert (H : forall lines st,
             Forall P (allSections st) ->
             Forall P (allSections (splitLoop st lines))).
  { induction lines as [|l lines IH]; intros st Hst; [exact Hst|].
    unfold splitLoop. simpl. fold (splitLoop (splitStep st l) lines).
    apply IH. apply splitStep_opens; [exact Hclose| |exact Hst].
    intros. now apply Hopen. }
  specialize (H (sectionLines content) initSplit (List.Forall_nil P)).
  revert H. generalize (splitLoop initSplit (sectionLines content)).
  intros st. unfold allSections, finishSplit.
  destruct (currentSection st) as [cur|]; [|now rewrite app_nil_r].
  intros H. apply Forall_app in H as [Hsecs Hcur].
  inversion Hcur; subst.
  apply Forall_app; split; [exact Hsecs|repeat constructor; now apply Hclose].
Qed.

(** X8. In every section of the returned document the heading is a line
    whose trimmed form starts with the marker, the level is the length of
    the marker run of the trimmed heading and is at least 1, and the title
    is what follows the marker run, trimmed. *)
Theorem X8_section_fields_follow_heading content filePath noBlocks :
  Forall (fun s =>
            isHeading (Heading s) = true
            /\ Level s = Z.of_nat (countMarkers (TrimSpace (Heading s)))
            /\ 1 <= Level s
            /\ Title s = TrimSpace (drop (countMarkers (TrimSpace (Heading s)))
                                      (TrimSpace (Heading s))))
    (Sections (fst (ParseDocument yaml_Unmarshal content filePath noBlocks))).
Proof.
  rewrite ParseDocument_unfold. cbn [fst Sections].
  set (P := fun s : Section_ => _ /\ _ /\ _ /\ _).
  assert (H : Forall P (parsedSections content)).
  { apply parsedSections_Forall.
    - intros s body Hs. exact Hs.
    - intros line level title index Hh -> ->. unfold P. cbn [Heading Level Title].
      repeat split; try assumption.
      pose proof (isHeading_level line Hh). lia. }
  destruct noBlocks; [|exact H].
  apply Forall_fmap. eapply List.Forall_impl; [|exact H].
  intros s Hs. exact Hs.
Qed.

(** The bodies of the closed sections carry no trailing line feed. *)
Lemma splitLoop_bodies_trimmed lines : forall st,
  Forall (fun s => TrimRight_nl (Body s) = Body s) (sections st) ->
  Forall (fun s => TrimRight_nl (Body s) = Body s)
    (finishSplit (splitLoop st lines)).
Proof.
  induction lines as [|l lines IH]; intros st Hst.
  - unfold splitLoop, finishSplit. simpl.
    destruct (currentSection st); [|exact Hst].
    apply Forall_app; split; [exact Hst|repeat constructor].
    apply TrimRight_nl_idem.
  - unfold splitLoop. simpl. fold (splitLoop (splitStep st l) lines).
    apply IH. unfold splitStep.
    destruct (isHeading l); [|exact Hst].
    destruct (currentSection st); cbn -[TrimSpace]; [|exact Hst].
    apply Forall_app; split; [exact Hst|repeat constructor].
    apply TrimRight_nl_idem.
Qed.

(** X9. No section body of the returned document ends with a line feed,
    with or without the code-fence filter. *)
Theorem X9_bodies_have_no_trailing_line_feed content filePath noBlocks :
  Forall (fun s => TrimRight_nl (Body s) = Body s)
    (Sections (fst (ParseDocument yaml_Unmarshal content filePath noBlocks))).
Proof.
  rewrite ParseDocument_unfold. cbn [fst Sections].
  destruct noBlocks.
  - apply Forall_fmap. apply Forall_forall. intros s _.
    cbn [filterBody Body compose]. unfold removeCodeBlocks.
    apply TrimRight_nl_idem.
  - unfold parsedSections. apply splitLoop_bodies_trimmed. constructor.
Qed.

(** X10. When the first line does not trim to the delimiter there is no
    metadata block: the decoder's result is not used, the metadata mapping
    is empty and every line, the first included, goes to the section
    loop. *)
Theorem X10_no_leading_delimiter content filePath noBlocks first rest :
  Split_nl content = first :: rest ->
  TrimSpace first <> "---" ->
  Frontmatter (fst (ParseDocument yaml_Unmarshal content filePath noBlocks))
  = ∅
  /\ sectionLines content = first :: rest.
Proof.
  intros Hs Hf. rewrite ParseDocument_unfold. cbn [fst Frontmatter].
  unfold sectionLines. rewrite Hs. unfold splitFrontmatter.
  destruct (String.eqb_spec (TrimSpace first) "---") as [E|_];
    [contradiction|].
  split; reflexivity.
Qed.

(** X11. A metadata block closed by a second delimiter line: the lines
    between the two delimiters are joined by line feeds and handed to the
    decoder together with an empty map, whose result becomes the metadata
    mapping (an empty block is not decoded at all), and the lines after the
    closing delimiter go to the section loop. *)
Theorem X11_closed_metadata_block content filePath noBlocks
    first block closing rest :
  Split_nl content = first :: block ++ closing :: rest ->
  TrimSpace first = "---" ->
  Forall (fun l => TrimSpace l <> "---") block ->
  TrimSpace closing = "---" ->
  Frontmatter (fst (ParseDocument yaml_Unmarshal content filePath noBlocks))
  = match block with
    | [] => ∅
    | _ => fst (yaml_Unmarshal (Join_nl block) ∅)
    end
  /\ sectionLines content = rest.
Proof.
  intros Hs Hf Hb Hc.
  assert (E : splitFrontmatter (Split_nl content) = (Some block, rest)).
  { rewrite Hs. unfold splitFrontmatter. rewrite Hf.
    cbn [String.eqb Ascii.eqb Bool.eqb andb].
    now rewrite (frontmatterLoop_closed block closing rest [] Hb Hc). }
  rewrite ParseDocument_unfold. cbn [fst Frontmatter].
  unfold sectionLines. rewrite E. cbn [fst snd].
  split; [|reflexivity]. now destruct block.
Qed.

(** The section loop in terms of the chunks of the lines still to read. *)
Lemma splitLoop_chunks lines : forall st,
  map headingAndBody (finishSplit (splitLoop st lines))
  = map headingAndBody (sections st)
    ++ match currentSection st, chunks lines with
       | Some cur, (pre, cs) =>
           (Heading cur, TrimRight_nl (Join_nl (bodyLines st ++ pre)))
           :: map (fun c => (fst c, TrimRight_nl (Join_nl (snd c)))) cs
       | None, (pre, []) => []
       | None, (pre, (h, b) :: cs) =>
           (h, TrimRight_nl (Join_nl (bodyLines st ++ pre ++ b)))
           :: map (fun c => (fst c, TrimRight_nl (Join_nl (snd c)))) cs
       end.
Proof.
  induction lines as [|l lines IH]; intros st.
  - unfold splitLoop, finishSplit. cbn [fold_left chunks].
    destruct (currentSection st) as [cur|].
    + rewrite map_app, app_nil_r. reflexivity.
    + now rewrite app_nil_r.
  - unfold splitLoop. cbn [fold_left]. fold (splitLoop (splitStep st l) lines).
    rewrite IH. cbn [chunks]. unfold splitStep.
    destruct (chunks lines) as [pre cs].
    destruct (isHeading l) eqn:Hh.
    + destruct (currentSection st) as [cur|];
        cbn -[TrimSpace Join_nl TrimRight_nl].
      * rewrite map_app, <- app_assoc, app_nil_r. reflexivity.
      * reflexivity.
    + cbn -[TrimSpace Join_nl TrimRight_nl].
      destruct (currentSection st) as [cur|].
      * now rewrite <- app_assoc.
      * destruct cs as [|[h b] cs]; [reflexivity|].
        now rewrite <- !app_assoc.
Qed.

(** X12. Without the code-fence filter, the headings and bodies of the
    returned sections are: for every heading line after the metadata
    block, in order, that line with the non-heading lines that follow it up
    to the next heading line, joined by line feeds and with the trailing
    line feeds removed; the body of the first section starts in addition
    with the lines that precede the first heading line. *)
Theorem X12_section_bodies content filePath :
  map headingAndBody
    (Sections (fst (ParseDocument yaml_Unmarshal content filePath false)))
  = sectionTexts (sectionLines content).
Proof.
  rewrite ParseDocument_unfold. cbn [fst Sections].
  unfold parsedSections, sectionTexts.
  rewrite splitLoop_chunks. cbn [initSplit sections currentSection bodyLines map app].
  destruct (chunks (sectionLines content)) as [pre [|[h b] cs]]; reflexivity.
Qed.

End ParserMore.

Lemma X10_witness :
  sectionLines ("intro" +:+ nl +:+ "---" +:+ nl +:+ "# A")
  = ["intro"; "---"; "# A"]
  /\ (forall (Value : Type) (dec : Decoder Value),
        Frontmatter (fst (ParseDocument dec
                            ("intro" +:+ nl +:+ "---" +:+ nl +:+ "# A")
                            "doc.md" false)) = ∅).
Proof.
  assert (Hn : TrimSpace "intro" <> "---") by (vm_compute; discriminate).
  split.
  - exact (proj2 (X10_no_leading_delimiter (fun _ (m : gmap string (option unit)) => (m, None))
                    ("intro" +:+ nl +:+ "---" +:+ nl +:+ "# A") "doc.md" false
                    "intro" ["---"; "# A"] eq_refl Hn)).
  - intros Value dec.
    exact (proj1 (X10_no_leading_delimiter dec
                    ("intro" +:+ nl +:+ "---" +:+ nl +:+ "# A") "doc.md" false
                    "intro" ["---"; "# A"] eq_refl Hn)).
Defined.

Lemma X11_witness :
  sectionLines ("---" +:+ nl +:+ "a: 1" +:+ nl +:+ "b: 2" +:+ nl +:+ " --- "
                +:+ nl +:+ "# A")
  = ["# A"]
  /\ (forall (Value : Type) (dec : Decoder Value),
        Frontmatter (fst (ParseDocument dec
                            ("---" +:+ nl +:+ "a: 1" +:+ nl +:+ "b: 2" +:+ nl
                             +:+ " --- " +:+ nl +:+ "# A") "doc.md" false))
        = fst (dec ("a: 1" +:+ nl +:+ "b: 2") ∅)).
Proof.
  assert (Hb : Forall (fun l => TrimSpace l <> "---") ["a: 1"; "b: 2"])
    by (repeat constructor; vm_compute; discriminate).
  split.
  - exact (proj2 (X11_closed_metadata_block (fun _ (m : gmap string (option unit)) => (m, None))
                    ("---" +:+ nl +:+ "a: 1" +:+ nl +:+ "b: 2" +:+ nl
                     +:+ " --- " +:+ nl +:+ "# A") "doc.md" false
                    "---" ["a: 1"; "b: 2"] " --- " ["# A"]
                    eq_refl eq_refl Hb eq_refl)).
  - intros Value dec.
    exact (proj1 (X11_closed_metadata_block dec
                    ("---" +:+ nl +:+ "a: 1" +:+ nl +:+ "b: 2" +:+ nl
                     +:+ " --- " +:+ nl +:+ "# A") "doc.md" false
                    "---" ["a: 1"; "b: 2"] " --- " ["# A"]
                    eq_refl eq_refl Hb eq_refl)).
Defined.

(* ===================================================================== *)
(** * More on the code-fence filter *)
(* ===================================================================== *)

Lemma ScanTokens_noLF (text : string) :
  Forall (fun t => noLF t = true) (ScanTokens text).
Proof.
  pose proof (ScanTokens_props text (fun _ => True)) as H.
  eapply List.Forall_impl; [|apply H].
  - intros a (Ha & _). exact Ha.
  - apply Forall_forall. intros; exact I.
Qed.

Lemma removeCodeBlocks_no_fence (text : string) :
  Forall (fun l => isFence l = false) (Split_nl (removeCodeBlocks text)).
Proof.
  rewrite removeCodeBlocks_kept.
  set (K := keptLoop false (ScanTokens text)).
  assert (HF : Forall (fun l => isFence l = false) (stripEmpty K))
    by (apply stripEmpty_Forall, keptLoop_not_fence).
  assert (HN : Forall (fun l => noLF l = true) (stripEmpty K))
    by (apply stripEmpty_Forall, keptLoop_Forall, ScanTokens_noLF).
  destruct (stripEmpty K) as [|x M] eqn:E.
  - repeat constructor.
  - rewrite Split_Join; [exact HF|discriminate|exact HN].
Qed.

(** X13. Whatever the input, no line of the filter's output has a trimmed
    form starting with the triple-backtick token, and the output does not
    end with a line feed. *)
Theorem X13_filter_output_is_clean (text : string) :
  Forall (fun l => isFence l = false) (Split_nl (removeCodeBlocks text))
  /\ TrimRight_nl (removeCodeBlocks text) = removeCodeBlocks text.
Proof.
  split; [apply removeCodeBlocks_no_fence|].
  unfold removeCodeBlocks. apply TrimRight_nl_idem.
Qed.

Lemma append_assoc (a b c : string) : (a +:+ b) +:+ c = a +:+ (b +:+ c).
Proof.
  induction a as [|x a IH]; [reflexivity|].
  now rewrite !append_cons, IH.
Qed.

Lemma removeLoop_outside a rest :
  Forall (fun l => isFence l = false) a ->
  removeLoop false (a ++ rest) = unlines a +:+ removeLoop false rest.
Proof.
  induction a as [|x a IH]; intros Ha; [reflexivity|].
  inversion Ha as [|? ? Hx Ha']; subst.
  cbn [app removeLoop unlines negb]. unfold isFence in Hx. rewrite Hx.
  rewrite (IH Ha'), !append_assoc. reflexivity.
Qed.

Lemma removeLoop_inside mid rest :
  Forall (fun l => isFence l = false) mid ->
  removeLoop true (mid ++ rest) = removeLoop true rest.
Proof.
  induction mid as [|x mid IH]; intros Hm; [reflexivity|].
  inversion Hm as [|? ? Hx Hm']; subst.
  cbn [app removeLoop negb]. unfold isFence in Hx. rewrite Hx.
  now apply IH.
Qed.

Lemma removeLoop_fence inCodeBlock f rest :
  isFence f = true ->
  removeLoop inCodeBlock (f :: rest) = removeLoop (negb inCodeBlock) rest.
Proof.
  intros Hf. cbn [removeLoop]. unfold isFence in Hf. now rewrite Hf.
Qed.

(** X14. A fenced region met outside any fence (an opening fence line,
    lines that are not fence lines, a closing fence line) is removed
    together with its two fence lines: the text filters to the same result
    as a text whose scanned lines are the same without that region. *)
Theorem X14_fenced_region_is_removed text text' a f1 mid f2 b :
  ScanTokens text = a ++ f1 :: mid ++ f2 :: b ->
  ScanTokens text' = a ++ b ->
  Forall (fun l => isFence l = false) a ->
  isFence f1 = true ->
  Forall (fun l => isFence l = false) mid ->
  isFence f2 = true ->
  removeCodeBlocks text = removeCodeBlocks text'.
Proof.
  intros Et Et' Ha Hf1 Hm Hf2. unfold removeCodeBlocks.
  rewrite Et, Et'. f_equal.
  rewrite !(removeLoop_outside a _ Ha). f_equal.
  rewrite (removeLoop_fence false f1 _ Hf1). cbn [negb].
  rewrite (removeLoop_inside mid _ Hm).
  now rewrite (removeLoop_fence true f2 _ Hf2).
Qed.

(** X15. A fence opened and never closed discards the rest of the text:
    the result is that of the text scanned up to the opening fence line. *)
Theorem X15_unclosed_fence_discards_rest text text' a f rest :
  ScanTokens text = a ++ f :: rest ->
  ScanTokens text' = a ->
  Forall (fun l => isFence l = false) a ->
  isFence f = true ->
  Forall (fun l => isFence l = false) rest ->
  removeCodeBlocks text = removeCodeBlocks text'.
Proof.
  intros Et Et' Ha Hf Hr. unfold removeCodeBlocks.
  rewrite Et, Et'. f_equal.
  rewrite (removeLoop_outside a _ Ha), (removeLoop_fence false f _ Hf).
  cbn [negb].
  rewrite <- (app_nil_r rest), (removeLoop_inside rest [] Hr).
  rewrite <- (app_nil_r a) at 2.
  now rewrite (removeLoop_outside a [] Ha).
Qed.

Lemma keptLoop_sublist tokens : forall inCodeBlock,
  sublist (keptLoop inCodeBlock tokens) tokens.
Proof.
  induction tokens as [|t tokens IH]; intros b; [constructor|].
  cbn [keptLoop]. destruct (isFence t); [constructor; apply IH|].
  destruct (negb b); constructor; apply IH.
Qed.

Lemma stripEmpty_sublist L : sublist (stripEmpty L) L.
Proof.
  induction L as [|x L IH]; [constructor|].
  cbn [stripEmpty]. destruct (stripEmpty L) as [|y M].
  - destruct x; [constructor; exact IH|].
    constructor. apply sublist_nil_l.
  - now constructor.
Qed.

(** X16. The filter never adds or reorders text: its output is the join,
    by line feeds, of a subsequence of the scanned lines of its input. *)
Theorem X16_filter_output_is_a_subsequence (text : string) :
  exists K, sublist K (ScanTokens text)
            /\ removeCodeBlocks text = Join_nl K.
Proof.
  exists (stripEmpty (keptLoop false (ScanTokens text))). split.
  - etransitivity; [apply stripEmpty_sublist|apply keptLoop_sublist].
  - apply removeCodeBlocks_kept.
Qed.

(** X17. With the no-blocks option the filter is applied to each body on
    its own, after the splitting: the sections are those parsed without
    the option, each with its body filtered, and no line of any body is a
    fence line. *)
Theorem X17_no_blocks_filters_each_body {Value : Type}
    (yaml_Unmarshal : string -> gmap string (option Value) ->
                      gmap string (option Value) * option error)
    (content filePath : string) :
  Sections (fst (ParseDocument yaml_Unmarshal content filePath true))
  = map (fun s => mkSection (Level s) (Title s) (Heading s)
                    (removeCodeBlocks (Body s)) (Index s))
      (Sections (fst (ParseDocument yaml_Unmarshal content filePath false)))
  /\ Forall (fun s => Forall (fun l => isFence l = false)
                        (Split_nl (Body s)))
       (Sections (fst (ParseDocument yaml_Unmarshal content filePath true))).
Proof.
  rewrite !ParseDocument_unfold. cbn [fst Sections].
  split; [reflexivity|].
  apply Forall_fmap, Forall_forall. intros s _.
  cbn [filterBody Body compose]. apply removeCodeBlocks_no_fence.
Qed.

Lemma X14_witness :
  removeCodeBlocks
    ("a" +:+ nl +:+ "```go" +:+ nl +:+ "x" +:+ nl +:+ "```" +:+ nl +:+ "b")
  = removeCodeBlocks ("a" +:+ nl +:+ "b").
Proof.
  apply (X14_fenced_region_is_removed _ _ ["a"] "```go" ["x"] "```" ["b"]);
    try reflexivity; repeat constructor.
Defined.

Lemma X15_witness :
  removeCodeBlocks
    ("a" +:+ nl +:+ "  ```" +:+ nl +:+ "x" +:+ nl +:+ "y")
  = removeCodeBlocks "a".
Proof.
  apply (X15_unclosed_fence_discards_rest _ _ ["a"] "  ```" ["x"; "y"]);
    try reflexivity; repeat constructor.
Defined.

(* ===================================================================== *)
(** * The plain text formatter *)
(* ===================================================================== *)

Lemma rawLoop_app opts rs1 rs2 :
  rawLoop opts (rs1 ++ rs2) = rawLoop opts rs1 +:+ rawLoop opts rs2.
Proof.
  induction rs1 as [|r rs1 IH]; [reflexivity|].
  cbn [app rawLoop]. destruct (isEmptyResult r); [exact IH|].
  now rewrite IH, append_assoc.
Qed.

Lemma rawLoop_empty opts rs :
  Forall (fun r => isEmptyResult r = true) rs ->
  rawLoop opts rs = EmptyString.
Proof.
  induction rs as [|r rs IH]; intros H; [reflexivity|].
  inversion H as [|? ? Hr Hrs]; subst. cbn [rawLoop]. rewrite Hr. now apply IH.
Qed.

Lemma groupResultsLoop_empty opts rs : forall n ri,
  Forall (fun r => isEmptyResult r = true) rs ->
  groupResultsLoop opts n ri rs = EmptyString.
Proof.
  induction rs as [|r rs IH]; intros n ri H; [reflexivity|].
  inversion H as [|? ? Hr Hrs]; subst. cbn [groupResultsLoop]. rewrite Hr.
  now apply IH.
Qed.

(** While no file label has been seen the collected results are of no
    consequence. *)
Lemma groupLoop_unlabelled rs : forall groups cur cur',
  groupLoop rs groups EmptyString cur = groupLoop rs groups EmptyString cur'.
Proof.
  induction rs as [|r rs IH]; intros groups cur cur'; [reflexivity|].
  cbn [groupLoop]. destruct (String.eqb (r_File r) EmptyString); cbn [negb].
  - apply IH.
  - reflexivity.
Qed.

Lemma groupLoop_same_file f rs : forall groups cur,
  Forall (fun r => r_File r = f) rs ->
  groupLoop rs groups f cur
  = if String.eqb f EmptyString then groups else groups ++ [(f, cur ++ rs)].
Proof.
  induction rs as [|r rs IH]; intros groups cur H.
  - cbn [groupLoop]. rewrite app_nil_r.
    now destruct (String.eqb f EmptyString).
  - inversion H as [|? ? Hr Hrs]; subst. cbn [groupLoop].
    rewrite String.eqb_refl. cbn [negb]. rewrite (IH _ _ Hrs).
    now rewrite <- app_assoc.
Qed.

(** The groups of results that all carry one file label. *)
Lemma groupLoop_one_file f rs :
  Forall (fun r => r_File r = f) rs ->
  groupLoop rs [] EmptyString [] = []
  \/ groupLoop rs [] EmptyString [] = [(f, rs)].
Proof.
  intros H. destruct rs as [|r rs]; [now left|].
  inversion H as [|? ? Hr Hrs]; subst. cbn [groupLoop].
  destruct (String.eqb (r_File r) EmptyString) eqn:E; cbn [negb].
  - left. apply String.eqb_eq in E. rewrite E in Hrs.
    now rewrite (groupLoop_same_file EmptyString rs [] _ Hrs).
  - right. cbn [String.eqb negb].
    rewrite (groupLoop_same_file (r_File r) rs [] [r] Hrs). now rewrite E.
Qed.

(** X18. In raw mode the records without heading and body leave no trace:
    the output is the one for the list without them. *)
Theorem X18_raw_mode_skips_empty_records results opts :
  RawOutput opts = true ->
  formatText results opts
  = formatText (List.filter (fun r => negb (isEmptyResult r)) results) opts.
Proof.
  intros Hraw. unfold formatText. rewrite Hraw. f_equal.
  induction results as [|r rs IH]; [reflexivity|].
  cbn [rawLoop List.filter]. destruct (isEmptyResult r) eqn:E; cbn [negb].
  - exact IH.
  - cbn [rawLoop]. now rewrite E, IH.
Qed.

(** X19. Results that all lack heading and body print nothing, in raw
    mode always and in grouped mode when they carry one file label. *)
Theorem X19_empty_records_print_nothing results opts :
  Forall (fun r => r_Heading r = EmptyString /\ r_Body r = EmptyString)
    results ->
  RawOutput opts = true \/ (exists f, Forall (fun r => r_File r = f) results) ->
  formatText results opts = EmptyString.
Proof.
  intros He Hmode.
  assert (He' : Forall (fun r => isEmptyResult r = true) results).
  { eapply List.Forall_impl; [|exact He].
    intros r [Hh Hb]. unfold isEmptyResult. now rewrite Hh, Hb. }
  unfold formatText. destruct (RawOutput opts) eqn:Hraw.
  - now rewrite rawLoop_empty.
  - destruct Hmode as [Hm|[f Hf]]; [discriminate|].
    destruct (groupLoop_one_file f results Hf) as [-> | ->]; [reflexivity|].
    cbn [length groupsLoop Nat.ltb Nat.leb].
    now rewrite groupResultsLoop_empty.
Qed.

(** X20. In grouped mode the records met before the first record with a
    non-empty file label are dropped, whatever they hold. *)
Theorem X20_unlabelled_records_are_dropped pre results opts :
  RawOutput opts = false ->
  Forall (fun r => r_File r = EmptyString) pre ->
  formatText (pre ++ results) opts = formatText results opts.
Proof.
  intros Hraw Hpre. unfold formatText. rewrite Hraw.
  assert (E : forall cur,
             groupLoop (pre ++ results) [] EmptyString cur
             = groupLoop results [] EmptyString []).
  { induction pre as [|r pre IH]; intros cur.
    - apply groupLoop_unlabelled.
    - inversion Hpre as [|? ? Hr Hpre']; subst.
      cbn [app groupLoop]. rewrite Hr. cbn [String.eqb negb].
      now apply IH. }
  now rewrite E.
Qed.

Section TextOfQueries.

Context {Value : Type} (Sprintf_v : Value -> string).

(** X21. A query that finds nothing prints nothing in text mode: this
    holds for a section query without index that matches no section, for a
    section query whose explicit index is beyond the matching sections, and
    for a frontmatter query on an absent field. *)
Theorem X21_misses_print_nothing (doc : Document Value) query opts :
  (isSectionQuery query /\ q_ExplicitIndex query = false
   /\ filtered doc query = [])
  \/ (isSectionQuery query /\ q_ExplicitIndex query = true
      /\ exists N : nat, q_Index query = Z.of_nat N
                         /\ nth_error (filtered doc query) N = None)
  \/ (q_Type query = "frontmatter"
      /\ Frontmatter doc !! q_Field query = None) ->
  formatText (ExecuteQuery Sprintf_v doc query opts) opts = EmptyString.
Proof.
  intros H.
  assert (E : ExecuteQuery Sprintf_v doc query opts = []
              \/ ExecuteQuery Sprintf_v doc query opts
                 = [emptyResult doc query]).
  { destruct H as [(Hs & Hi & Hf)|[(Hs & He & N & HN & Hn)|(Ht & Hl)]].
    - left. rewrite (section_query_dispatch Sprintf_v doc query opts Hs).
      rewrite (sectionLoop_implicit doc query opts _ Hi).
      unfold filtered in Hf. now rewrite Hf.
    - right. rewrite (section_query_dispatch Sprintf_v doc query opts Hs).
      rewrite (sectionLoop_explicit doc query opts _ He N 0) by lia.
      unfold filtered in Hn. now rewrite Hn.
    - right. unfold ExecuteQuery. rewrite Ht, Hl. reflexivity. }
  destruct E as [-> | ->].
  - unfold formatText. now destruct (RawOutput opts).
  - unfold formatText. destruct (RawOutput opts); [reflexivity|].
    cbn [groupLoop emptyResult r_File].
    destruct (String.eqb (FilePath doc) EmptyString); reflexivity.
Qed.

End TextOfQueries.

Lemma X18_witness :
  formatText [ mkResult "a.md" "#" "# One" "first";
               mkResult "a.md" "#X[3]" EmptyString EmptyString;
               mkResult "a.md" "#" "# Two" "second" ] rawOnly
  = formatText [ mkResult "a.md" "#" "# One" "first";
                 mkResult "a.md" "#" "# Two" "second" ] rawOnly.
Proof.
  exact (X18_raw_mode_skips_empty_records
           [ mkResult "a.md" "#" "# One" "first";
             mkResult "a.md" "#X[3]" EmptyString EmptyString;
             mkResult "a.md" "#" "# Two" "second" ] rawOnly eq_refl).
Defined.

Lemma X19_witness :
  formatText [ mkResult "a.md" "#X[3]" EmptyString EmptyString;
               mkResult "a.md" "date" EmptyString EmptyString ] noProjection
  = EmptyString.
Proof.
  apply X19_empty_records_print_nothing.
  - repeat constructor.
  - right. exists "a.md". repeat constructor.
Defined.

Lemma X20_witness :
  formatText [ mkResult EmptyString "#" "# One" "first";
               mkResult "b.md" "#" "# Two" "second" ] noProjection
  = formatText [ mkResult "b.md" "#" "# Two" "second" ] noProjection.
Proof.
  apply (X20_unlabelled_records_are_dropped
           [ mkResult EmptyString "#" "# One" "first" ]
           [ mkResult "b.md" "#" "# Two" "second" ] noProjection eq_refl).
  repeat constructor.
Defined.

Lemma X21_witness :
  formatText (ExecuteQuery showString exampleDoc
                (fst (ParseQuery "##Notes[2]")) noProjection) noProjection
  = EmptyString.
Proof.
  apply X21_misses_print_nothing. right. left.
  split; [vm_compute; discriminate|]. split; [reflexivity|].
  exists 2%nat. split; reflexivity.
Defined.

(* ===================================================================== *)
(** * The comma-separated queries and the CSV cells *)
(* ===================================================================== *)

Lemma noByte_app c a b : noByte c (a +:+ b) = noByte c a && noByte c b.
Proof.
  induction a as [|x a IH]; [reflexivity|].
  rewrite append_cons. cbn [noByte]. now rewrite IH, andb_assoc.
Qed.

Lemma noByte_drop c n : forall s, noByte c s = true -> noByte c (drop n s) = true.
Proof.
  induction n as [|n IH]; intros s H; [exact H|].
  destruct s as [|x s]; [reflexivity|]. cbn [drop]. apply IH.
  cbn [noByte] in H. now apply andb_true_iff in H as [_ H].
Qed.

Lemma noByte_take c n : forall s, noByte c s = true -> noByte c (take n s) = true.
Proof.
  induction n as [|n IH]; intros s H; [now destruct s|].
  destruct s as [|x s]; [reflexivity|]. cbn [take noByte] in *.
  apply andb_true_iff in H as [Hx H]. now rewrite Hx, (IH s H).
Qed.

Lemma trimLeftSpace_noByte c fuel : forall s,
  noByte c s = true -> noByte c (trimLeftSpace fuel s) = true.
Proof.
  induction fuel as [|fuel IH]; intros s H; [exact H|].
  cbn [trimLeftSpace]. destruct s as [|x s]; [exact H|].
  destruct (DecodeRuneInString (String x s)) as [r size].
  destruct (IsSpace r); [|exact H]. apply IH. now apply noByte_drop.
Qed.

Lemma trimRightSpace_noByte c fuel : forall s,
  noByte c s = true -> noByte c (trimRightSpace fuel s) = true.
Proof.
  induction fuel as [|fuel IH]; intros s H; [exact H|].
  cbn [trimRightSpace]. destruct s as [|x s]; [exact H|].
  destruct (DecodeLastRuneInString (String x s)) as [r size].
  destruct (IsSpace r); [|exact H]. apply IH. now apply noByte_take.
Qed.

(** Trimming only removes bytes. *)
Lemma TrimSpace_noByte c s : noByte c s = true -> noByte c (TrimSpace s) = true.
Proof.
  intros H. unfold TrimSpace.
  now apply trimRightSpace_noByte, trimLeftSpace_noByte.
Qed.

Lemma Split_byte_noByte sep s :
  Forall (fun part => noByte sep part = true) (Split_byte sep s).
Proof.
  induction s as [|c s IH]; [repeat constructor|].
  cbn [Split_byte]. destruct (Ascii.eqb c sep) eqn:Ec.
  - constructor; [reflexivity|exact IH].
  - destruct (Split_byte sep s) as [|h t];
      [repeat constructor; cbn; now rewrite Ec|].
    inversion IH as [|? ? Hh Ht]; subst.
    constructor; [cbn [noByte]; now rewrite Ec, Hh|exact Ht].
Qed.

(** The title and the field of a parsed query hold only bytes of the
    query string. *)
Lemma ParseQuery_noByte c queryStr :
  noByte c queryStr = true ->
  noByte c (q_Title (fst (ParseQuery queryStr))) = true
  /\ noByte c (q_Field (fst (ParseQuery queryStr))) = true.
Proof.
  intros H. unfold ParseQuery. destruct (HasPrefix queryStr "#").
  - pose proof (noByte_drop c (countMarkers queryStr) queryStr H) as Hr.
    destruct (indexPattern _) as [[m1 m2]|] eqn:E; cbn [fst q_Title q_Field].
    + destruct (indexPattern_Some _ _ _ E) as (Er & _).
      rewrite Er, noByte_app in Hr. apply andb_true_iff in Hr as [Hm _].
      split; [now apply TrimSpace_noByte|reflexivity].
    + split; [now apply TrimSpace_noByte|reflexivity].
  - split; [reflexivity|exact H].
Qed.

(** X22. No query string obtained from the command-line argument is empty
    or holds a comma, so neither the title nor the field name of a parsed
    query can hold a comma. *)
Theorem X22_queries_hold_no_comma (queryStr : string) :
  Forall (fun q =>
            q <> EmptyString
            /\ noByte ","%char q = true
            /\ noByte ","%char (q_Title (fst (ParseQuery q))) = true
            /\ noByte ","%char (q_Field (fst (ParseQuery q))) = true)
    (parseQueryStrings queryStr).
Proof.
  unfold parseQueryStrings.
  pose proof (Split_byte_noByte ","%char queryStr) as H.
  induction H as [|part parts Hp _ IH]; [constructor|].
  cbn [queryStringsLoop].
  destruct (String.eqb_spec (TrimSpace part) EmptyString) as [E|E];
    cbn [negb]; [exact IH|].
  constructor; [|exact IH].
  pose proof (TrimSpace_noByte _ _ Hp) as Ht.
  destruct (ParseQuery_noByte _ _ Ht) as [H1 H2].
  repeat split; assumption.
Qed.

Lemma ReplaceAll_byte_removes s old new :
  old <> new -> noByte old (ReplaceAll_byte s old new) = true.
Proof.
  intros Hne. induction s as [|x s IH]; [reflexivity|].
  cbn [ReplaceAll_byte noByte]. rewrite IH, andb_true_r.
  destruct (Ascii.eqb_spec x old) as [->|Hx].
  - destruct (Ascii.eqb_spec new old) as [E|_]; [now contradiction Hne|reflexivity].
  - destruct (Ascii.eqb_spec x old) as [E|_]; [contradiction|reflexivity].
Qed.

Lemma ReplaceAll_byte_keeps c s old new :
  c <> new -> noByte c s = true -> noByte c (ReplaceAll_byte s old new) = true.
Proof.
  intros Hne. induction s as [|x s IH]; intros H; [reflexivity|].
  cbn [ReplaceAll_byte noByte] in *. apply andb_true_iff in H as [Hx H].
  rewrite (IH H), andb_true_r.
  destruct (Ascii.eqb x old); [|exact Hx].
  destruct (Ascii.eqb_spec new c) as [E|_]; [now contradiction Hne|reflexivity].
Qed.

Lemma fieldsLoop_noByte c fuel : forall s cur,
  noByte c s = true ->
  (forall f, cur = Some f -> noByte c f = true) ->
  Forall (fun f => noByte c f = true) (fieldsLoop fuel s cur).
Proof.
  assert (Hflush : forall cur : option string,
             (forall f, cur = Some f -> noByte c f = true) ->
             Forall (fun f => noByte c f = true)
               (match cur with Some f => [f] | None => [] end)).
  { intros [f|] H; repeat constructor. now apply H. }
  induction fuel as [|fuel IH]; intros s cur Hs Hcur; [now apply Hflush|].
  cbn [fieldsLoop]. destruct s as [|x s]; [now apply Hflush|].
  destruct (DecodeRuneInString (String x s)) as [r size].
  pose proof (noByte_drop c size _ Hs) as Hd.
  pose proof (noByte_take c size _ Hs) as Ht.
  destruct (IsSpace r).
  - destruct cur as [f|].
    + constructor; [now apply Hcur|]. apply IH; [exact Hd|discriminate].
    + apply IH; [exact Hd|discriminate].
  - apply IH; [exact Hd|]. intros f Hf. injection Hf as <-.
    destruct cur as [f|]; [|exact Ht].
    rewrite noByte_app, Ht, andb_true_r. now apply Hcur.
Qed.

Lemma Join_noByte c sep L :
  noByte c sep = true ->
  Forall (fun f => noByte c f = true) L ->
  noByte c (Join L sep) = true.
Proof.
  intros Hsep. induction L as [|x L IH]; intros H; [reflexivity|].
  inversion H as [|? ? Hx HL]; subst.
  destruct L as [|y L]; [exact Hx|].
  change (Join (x :: y :: L) sep) with (x +:+ sep +:+ Join (y :: L) sep).
  rewrite !noByte_app, Hx, Hsep, (IH HL). reflexivity.
Qed.

(** X23. A CSV cell is always a single line: whatever the body, its
    escaped form holds neither a line feed nor a carriage return. *)
Theorem X23_csv_cells_are_single_line (s : string) :
  noByte LF (escapeCSV s) = true /\ noByte CR (escapeCSV s) = true.
Proof.
  unfold escapeCSV, Fields.
  assert (H1 : noByte LF (ReplaceAll_byte (ReplaceAll_byte s LF " ") CR " ")
               = true).
  { apply ReplaceAll_byte_keeps; [discriminate|].
    apply ReplaceAll_byte_removes. discriminate. }
  assert (H2 : noByte CR (ReplaceAll_byte (ReplaceAll_byte s LF " ") CR " ")
               = true).
  { apply ReplaceAll_byte_removes. discriminate. }
  split; (apply Join_noByte; [reflexivity|]);
    apply fieldsLoop_noByte; try assumption; discriminate.
Qed.

(* ===================================================================== *)
(** * The CSV table *)
(* ===================================================================== *)

Lemma firstOccurrences_snoc (l : list string) (x : string) :
  firstOccurrences (l ++ [x])
  = if decide (x ∈ l) then firstOccurrences l else firstOccurrences l ++ [x].
Proof.
  unfold firstOccurrences. rewrite rev_unit. cbn [remove_dups].
  destruct (decide_rel elem_of x (rev l)) as [Hin|Hnin].
  - rewrite decide_True; [reflexivity|].
    apply list_elem_of_In. apply list_elem_of_In in Hin.
    now apply in_rev.
  - rewrite decide_False; [reflexivity|].
    intros Hin. apply Hnin. apply list_elem_of_In. apply list_elem_of_In in Hin.
    now apply in_rev in Hin.
Qed.

Lemma elem_of_firstOccurrences (l : list string) (x : string) :
  x ∈ firstOccurrences l <-> x ∈ l.
Proof.
  unfold firstOccurrences.
  rewrite list_elem_of_In, <- in_rev, <- list_elem_of_In, elem_of_remove_dups.
  rewrite !list_elem_of_In, <- in_rev. reflexivity.
Qed.

Lemma NoDup_firstOccurrences (l : list string) : NoDup (firstOccurrences l).
Proof.
  unfold firstOccurrences. apply NoDup_ListNoDup, List.NoDup_rev.
  apply NoDup_ListNoDup, NoDup_remove_dups.
Qed.

Lemma queryNamesLoop_spec results : forall P queryNames seenQueries,
  queryNames = firstOccurrences P ->
  (forall q, default false (seenQueries !! q) = true <-> q ∈ P) ->
  queryNamesLoop results queryNames seenQueries
  = firstOccurrences (P ++ List.filter nonEmpty (map r_Query results)).
Proof.
  induction results as [|r rs IH]; intros P names seen Hn Hs.
  - cbn. now rewrite app_nil_r.
  - cbn [queryNamesLoop map List.filter]. unfold nonEmpty at 1.
    destruct (String.eqb (r_Query r) EmptyString); cbn [negb andb];
      [now apply IH|].
    replace (P ++ r_Query r :: List.filter nonEmpty (map r_Query rs))
      with ((P ++ [r_Query r]) ++ List.filter nonEmpty (map r_Query rs))
      by (now rewrite <- app_assoc).
    destruct (default false (seen !! r_Query r)) eqn:E; cbn [negb].
    + apply IH.
      * rewrite firstOccurrences_snoc, decide_True; [exact Hn|]. now apply Hs.
      * intros q. rewrite elem_of_app, list_elem_of_singleton, Hs.
        split; [now left|]. intros [H | ->]; [exact H|]. now apply Hs.
    + assert (Hnin : r_Query r ∉ P).
      { intros Hin. apply Hs in Hin. congruence. }
      apply IH.
      * rewrite firstOccurrences_snoc, decide_False by exact Hnin.
        now rewrite Hn.
      * intros q. rewrite elem_of_app, list_elem_of_singleton.
        destruct (decide (q = r_Query r)) as [->|Hne].
        -- rewrite lookup_insert_eq. cbn. split; [now right|reflexivity].
        -- rewrite lookup_insert_ne by congruence. rewrite Hs.
           split; [now left|]. intros [H|H]; [exact H|contradiction].
Qed.

Lemma cellOf_insert fileMap f0 q0 v file values f q :
  cellOf (<[f0 := mkFileData file (<[q0 := v]> values)]> fileMap) f q
  = if decide (f = f0)
    then (if decide (q = q0) then Some v else values !! q)
    else cellOf fileMap f q.
Proof.
  unfold cellOf. destruct (decide (f = f0)) as [->|Hne].
  - rewrite lookup_insert_eq. cbn [fd_values].
    destruct (decide (q = q0)) as [->|Hq].
    + now rewrite lookup_insert_eq.
    + now rewrite lookup_insert_ne by congruence.
  - now rewrite lookup_insert_ne by congruence.
Qed.

Lemma fileLoop_spec results : forall P fileMap fileOrder fileMap' fileOrder',
  fileOrder = firstOccurrences P ->
  (forall f, is_Some (fileMap !! f) <-> f ∈ P) ->
  (forall f fd, fileMap !! f = Some fd -> fd_file fd = f) ->
  fileLoop results fileMap fileOrder = (fileMap', fileOrder') ->
  fileOrder' = firstOccurrences (P ++ map r_File results)
  /\ (forall f, f ∈ P ++ map r_File results ->
                exists fd, fileMap' !! f = Some fd /\ fd_file fd = f)
  /\ (forall f q,
        cellOf fileMap' f q
        = match lastBody f q results with
          | Some b => Some (escapeCSV b)
          | None => cellOf fileMap f q
          end).
Proof.
  induction results as [|r rs IH]; intros P fm fo fm' fo' Hfo Hdom Hfile Hloop.
  - cbn in Hloop. injection Hloop as <- <-. cbn [map lastBody].
    rewrite app_nil_r. repeat split; try assumption.
    intros f Hf. apply Hdom in Hf as [fd Hfd]. exists fd.
    split; [exact Hfd|now apply Hfile].
  - cbn [fileLoop] in Hloop.
    set (f0 := r_File r) in *. set (q0 := r_Query r) in *.
    set (fd := match fm !! f0 with Some fd => fd | None => mkFileData f0 ∅ end)
      in *.
    assert (Hfd : fd_file fd = f0).
    { unfold fd. destruct (fm !! f0) eqn:E; [now apply Hfile|reflexivity]. }
    assert (Hv : (if negb (String.eqb (r_Body r) EmptyString)
                  then r_Body r else EmptyString) = r_Body r).
    { destruct (String.eqb_spec (r_Body r) EmptyString) as [->|_]; reflexivity. }
    rewrite Hv in Hloop.
    apply (IH (P ++ [f0])) in Hloop.
    + destruct Hloop as (H1 & H2 & H3).
      replace (P ++ map r_File (r :: rs)) with ((P ++ [f0]) ++ map r_File rs)
        by (now rewrite <- app_assoc).
      split; [exact H1|]. split; [exact H2|].
      intros f q. rewrite H3, cellOf_insert. cbn [lastBody].
      destruct (lastBody f q rs); [reflexivity|].
      fold f0 q0.
      destruct (decide (f = f0)) as [->|Hf].
      * rewrite String.eqb_refl. cbn [andb].
        destruct (decide (q = q0)) as [->|Hq].
        -- now rewrite String.eqb_refl.
        -- destruct (String.eqb_spec q0 q) as [E|_]; [congruence|].
           unfold cellOf, fd. now destruct (fm !! f0).
      * destruct (String.eqb_spec f0 f) as [E|_]; [congruence|reflexivity].
    + rewrite firstOccurrences_snoc.
      destruct (fm !! f0) eqn:E.
      * rewrite decide_True; [exact Hfo|]. apply Hdom. now rewrite E.
      * rewrite decide_False; [now rewrite Hfo|].
        intros Hin. apply Hdom in Hin. rewrite E in Hin. now destruct Hin.
    + intros f. rewrite elem_of_app, list_elem_of_singleton.
      destruct (decide (f = f0)) as [->|Hf].
      * rewrite lookup_insert_eq. split; [now right|eauto].
      * rewrite lookup_insert_ne by congruence. rewrite Hdom.
        split; [now left|]. intros [H|H]; [exact H|contradiction].
    + intros f fd1. destruct (decide (f = f0)) as [->|Hf].
      * rewrite lookup_insert_eq. intros H. injection H as <-. exact Hfd.
      * rewrite lookup_insert_ne by congruence. apply Hfile.
Qed.

Lemma rowsLoop_spec fileMap queryNames fileOrder :
  (forall f, f ∈ fileOrder ->
             exists fd, fileMap !! f = Some fd /\ fd_file fd = f) ->
  rowsLoop fileMap queryNames fileOrder
  = Some (map (fun f =>
                 f :: map (fun q => default EmptyString (cellOf fileMap f q))
                        queryNames)
            fileOrder).
Proof.
  induction fileOrder as [|f fo IH]; intros H; [reflexivity|].
  cbn [rowsLoop map].
  destruct (H f) as (fd & Hfd & Hf); [now left|].
  rewrite Hfd, IH by (intros g Hg; apply H; now right).
  rewrite Hf. unfold cellOf. now rewrite Hfd.
Qed.

(** The records handed to the CSV writer. *)
Lemma csvRecords_spec (results : list QueryResult) :
  csvRecords results
  = Some (("file"
           :: firstOccurrences (List.filter nonEmpty (map r_Query results)))
          :: map (fun f =>
                    f :: map (csvCell results f)
                           (firstOccurrences
                              (List.filter nonEmpty (map r_Query results))))
               (firstOccurrences (map r_File results))).
Proof.
  unfold csvRecords.
  rewrite (queryNamesLoop_spec results [] [] ∅ eq_refl).
  2:{ intros q. rewrite lookup_empty. cbn. split; [discriminate|].
      intros H. now apply elem_of_nil in H. }
  cbn [app].
  destruct (fileLoop results ∅ []) as [fm fo] eqn:E.
  apply (fileLoop_spec results [] ∅ []) in E.
  - destruct E as (-> & Hdom & Hcell). cbn [app] in *.
    rewrite rowsLoop_spec.
    + do 2 f_equal. apply map_ext. intros f. f_equal.
      apply map_ext. intros q. unfold csvCell. rewrite Hcell.
      destruct (lastBody f q results); [reflexivity|].
      unfold cellOf. now rewrite lookup_empty.
    + intros f Hf. apply Hdom. now rewrite elem_of_firstOccurrences in Hf.
  - reflexivity.
  - intros f. rewrite lookup_empty. split; [intros [? H]; discriminate|].
    intros H. now apply elem_of_nil in H.
  - intros f fd. now rewrite lookup_empty.
Qed.

(** X24. The CSV table never fails to build (no file of [fileOrder] is
    missing from [fileMap]).  Its header is [file] followed by the distinct
    non-empty query labels in order of first occurrence; it has one row per
    distinct file label, in order of first occurrence, starting with that
    label; and the cell of a file and a query is the escaped body of the
    last record carrying both labels, or empty when there is none. *)
Theorem X24_csv_table (results : list QueryResult) :
  let names := firstOccurrences (List.filter nonEmpty (map r_Query results)) in
  let files := firstOccurrences (map r_File results) in
  csvRecords results
  = Some (("file" :: names)
          :: map (fun f => f :: map (csvCell results f) names) files)
  /\ NoDup names /\ NoDup files
  /\ (forall q, q ∈ names <->
                q <> EmptyString /\ exists r, r ∈ results /\ r_Query r = q)
  /\ (forall f, f ∈ files <-> exists r, r ∈ results /\ r_File r = f).
Proof.
  cbv zeta. split; [apply csvRecords_spec|].
  split; [apply NoDup_firstOccurrences|].
  split; [apply NoDup_firstOccurrences|]. split.
  - intros q. rewrite elem_of_firstOccurrences, list_elem_of_In, filter_In.
    rewrite in_map_iff. unfold nonEmpty.
    split.
    + intros [(r & <- & Hr) Hne]. split.
      * intros E. rewrite E in Hne. discriminate.
      * exists r. split; [now apply list_elem_of_In|reflexivity].
    + intros [Hne (r & Hr & <-)]. split.
      * exists r. split; [reflexivity|now apply list_elem_of_In].
      * destruct (String.eqb_spec (r_Query r) EmptyString);
          [contradiction|reflexivity].
  - intros f. rewrite elem_of_firstOccurrences, list_elem_of_In, in_map_iff.
    split; intros (r & H1 & H2); exists r.
    + split; [now apply list_elem_of_In|exact H1].
    + split; [exact H2|now apply list_elem_of_In].
Qed.

(** X25. Every record of the CSV table, the header included, has the same
    number of fields: one more than the number of distinct non-empty query
    labels. *)
Theorem X25_csv_table_is_rectangular (results : list QueryResult) :
  exists records,
    csvRecords results = Some records
    /\ Forall (fun record =>
                 length record
                 = S (length (firstOccurrences
                                (List.filter nonEmpty (map r_Query results)))))
         records.
Proof.
  eexists. split; [apply csvRecords_spec|].
  constructor; [reflexivity|].
  apply Forall_forall. intros row Hrow.
  apply list_elem_of_In, in_map_iff in Hrow as (f & <- & _).
  cbn [length]. now rewrite length_map.
Qed.

Lemma firstOccurrences_constant (a : string) (l : list string) :
  l <> [] -> Forall (fun x => x = a) l -> firstOccurrences l = [a].
Proof.
  induction l as [|x l IH] using rev_ind; intros Hne Hall;
    [now contradiction Hne|].
  apply Forall_app in Hall as [Hl Hx]. inversion Hx; subst.
  rewrite firstOccurrences_snoc.
  destruct l as [|y l].
  - rewrite decide_False; [reflexivity|]. intros H. now apply elem_of_nil in H.
  - rewrite decide_True.
    + apply IH; [discriminate|exact Hl].
    + inversion Hl; subst. now left.
Qed.

Lemma lastBody_snoc f q l r :
  r_File r = f -> r_Query r = q -> lastBody f q (l ++ [r]) = Some (r_Body r).
Proof.
  intros Hf Hq. induction l as [|x l IH].
  - cbn. now rewrite Hf, Hq, !String.eqb_refl.
  - cbn [app lastBody]. now rewrite IH.
Qed.

Lemma formatQuery_section_nonempty query :
  isSectionQuery query -> 1 <= q_Level query ->
  formatQuery query <> EmptyString.
Proof.
  intros Hs Hl. unfold formatQuery.
  destruct (String.eqb_spec (q_Type query) "frontmatter") as [E|_];
    [contradiction|].
  destruct (Z.to_nat (q_Level query)) as [|n] eqn:E; [lia|].
  cbn [markers]. rewrite append_cons. discriminate.
Qed.

(** X26. A section query without index that matches several sections of a
    document fills one CSV cell only: the table has the header and a single
    row for the document, and the cell of the query holds the escaped body
    of the last matching section as the engine projected it, which is the
    empty string under head-only.  A query whose rendering is empty gets no
    column; the rendering of a query of level at least 1 is not empty. *)
Theorem X26_csv_keeps_last_match {Value : Type}
    (Sprintf_v : Value -> string) (doc : Document Value) query opts
    (earlier : list Section_) (last : Section_) :
  isSectionQuery query ->
  q_ExplicitIndex query = false ->
  filtered doc query = earlier ++ [last] ->
  csvRecords (ExecuteQuery Sprintf_v doc query opts)
  = Some (if nonEmpty (formatQuery query)
          then [ ["file"; formatQuery query];
                 [FilePath doc;
                  escapeCSV (if HeadOnly opts then EmptyString
                             else Body last)] ]
          else [ ["file"]; [FilePath doc] ])
  /\ (1 <= q_Level query -> nonEmpty (formatQuery query) = true).
Proof.
  intros Hs Hi Hf. split.
  2:{ intros Hl. unfold nonEmpty.
      pose proof (formatQuery_section_nonempty query Hs Hl) as Hne.
      now destruct (String.eqb_spec (formatQuery query) EmptyString). }
  rewrite (section_query_dispatch Sprintf_v doc query opts Hs).
  rewrite (sectionLoop_implicit doc query opts _ Hi). cbn [app].
  unfold filtered in Hf. rewrite Hf.
  set (results := map (sectionResult doc query opts) (earlier ++ [last])).
  assert (Hq : List.filter nonEmpty (map r_Query results)
               = if nonEmpty (formatQuery query)
                 then map (fun _ => formatQuery query) (earlier ++ [last])
                 else []).
  { unfold results. rewrite map_map. cbn [sectionResult r_Query].
    generalize (earlier ++ [last]). intros l.
    induction l as [|x l IH]; [now destruct (nonEmpty _)|].
    cbn [map List.filter]. rewrite IH.
    now destruct (nonEmpty (formatQuery query)). }
  assert (Hfiles : map r_File results
                   = map (fun _ => FilePath doc) (earlier ++ [last])).
  { unfold results. now rewrite map_map. }
  assert (Hconst : forall (a : string) (l : list Section_),
             Forall (fun x => x = a) (map (fun _ => a) l)).
  { intros a l. induction l; constructor; auto. }
  assert (Hnn : forall a : string,
             map (fun _ : Section_ => a) (earlier ++ [last]) <> []).
  { intros a. rewrite map_app. cbn. now destruct (map _ earlier). }
  rewrite csvRecords_spec, Hq, Hfiles.
  rewrite (firstOccurrences_constant (FilePath doc)
             (map (fun _ => FilePath doc) (earlier ++ [last])))
    by (apply Hnn || apply Hconst).
  destruct (nonEmpty (formatQuery query)); [|reflexivity].
  rewrite (firstOccurrences_constant (formatQuery query))
    by (apply Hnn || apply Hconst).
  cbn [map]. unfold csvCell, results. rewrite map_app. cbn [map].
  rewrite (lastBody_snoc (FilePath doc) (formatQuery query) _
             (sectionResult doc query opts last) eq_refl eq_refl).
  cbn [sectionResult r_Body]. now destruct (HeadOnly opts).
Qed.

Lemma X26_witness :
  csvRecords (ExecuteQuery showString exampleDoc (fst (ParseQuery "#"))
                noProjection)
  = Some [ ["file"; "#"]; ["notes.md"; "third"] ].
Proof.
  refine (proj1 (X26_csv_keeps_last_match showString exampleDoc
                   (fst (ParseQuery "#")) noProjection
                   [ mkSection 1 "One" "# One" "first" 0;
                     mkSection 1 "Two" "# Two" "second" 1 ]
                   (mkSection 1 "Three" "# Three" "third" 2)
                   _ eq_refl eq_refl)).
  vm_compute. discriminate.
Defined.

(* ===================================================================== *)
(** * The canonical rendering *)
(* ===================================================================== *)

Lemma markers_allMarkers (n : nat) : allMarkers (markers n) = true.
Proof. induction n as [|n IH]; [reflexivity|exact IH]. Qed.

(** The marker run rendered for the level counted on a string is the run
    that string starts with. *)
Lemma markers_take (s : string) :
  markers (countMarkers s) = take (countMarkers s) s.
Proof.
  induction s as [|c s IH]; [reflexivity|]. cbn [countMarkers].
  destruct (Ascii.eqb_spec c "#") as [->|_]; [|reflexivity].
  cbn [markers take]. now rewrite IH.
Qed.

Ltac byte_value :=
  match goal with
  | |- context [byte ?c] =>
      let v := eval vm_compute in (byte c) in change (byte c) with v
  end.

Lemma digitsValue_uint_acc (d : Decimal.uint) : forall acc : positive,
  digitsValue (Z.pos acc) (NilEmpty.string_of_uint d)
  = Z.pos (Pos.of_uint_acc d acc).
Proof.
  induction d as [|d IH|d IH|d IH|d IH|d IH|d IH|d IH|d IH|d IH|d IH];
    intros acc; [reflexivity|..];
    cbn [NilEmpty.string_of_uint digitsValue Pos.of_uint_acc];
    rewrite <- IH; f_equal; byte_value; lia.
Qed.

Lemma digitsValue_uint (d : Decimal.uint) :
  digitsValue 0 (NilEmpty.string_of_uint d) = Z.of_N (Pos.of_uint d).
Proof.
  induction d as [|d IH|d IH|d IH|d IH|d IH|d IH|d IH|d IH|d IH|d IH];
    [reflexivity|exact IH|..];
    cbn [NilEmpty.string_of_uint digitsValue Pos.of_uint];
    byte_value; apply digitsValue_uint_acc.
Qed.

Lemma allDigits_uint (d : Decimal.uint) :
  allDigits (NilEmpty.string_of_uint d) = true.
Proof.
  induction d as [|d IH|d IH|d IH|d IH|d IH|d IH|d IH|d IH|d IH|d IH];
    [reflexivity|..]; cbn [NilEmpty.string_of_uint allDigits];
    rewrite IH; reflexivity.
Qed.

(** The decimal rendering of an index that is not negative: digits only,
    at least one, and their value is the index. *)
Lemma Sprintf_d_decimal (n : Z) :
  0 <= n ->
  allDigits (Sprintf_d n) = true
  /\ Sprintf_d n <> EmptyString
  /\ digitsValue 0 (Sprintf_d n) = n.
Proof.
  intros Hn. destruct n as [|p|p]; [repeat split; discriminate| |lia].
  unfold Sprintf_d. cbn [Z.to_int NilZero.string_of_int].
  pose proof (DecimalPos.Unsigned.of_to p) as Hp.
  destruct (Pos.to_uint p) as [|d|d|d|d|d|d|d|d|d|d] eqn:E;
    [discriminate Hp|..]; cbn [NilZero.string_of_uint];
    (split; [apply allDigits_uint|]); (split; [discriminate|]);
    now rewrite digitsValue_uint, Hp.
Qed.

(** C9. The canonical rendering of a section query is a run of the marker
    byte whose length is the level, then the title, then nothing when the
    descriptor has no explicit index and the bracketed decimal index when
    it has one.  A query string parsed without a bracket suffix is rendered
    as its own marker run and its trimmed remainder, with nothing appended;
    a query string parsed from an explicit [[0]] suffix is rendered with
    [[0]] at the end. *)
Theorem C9_canonical_rendering :
  (forall query, isSectionQuery query ->
     exists run suffix,
       formatQuery query = run +:+ q_Title query +:+ suffix
       /\ String.length run = Z.to_nat (q_Level query)
       /\ allMarkers run = true
       /\ (q_ExplicitIndex query = false -> suffix = EmptyString)
       /\ (q_ExplicitIndex query = true ->
           exists ds,
             suffix = "[" +:+ ds +:+ "]"
             /\ (0 <= q_Index query ->
                 allDigits ds = true /\ ds <> EmptyString
                 /\ digitsValue 0 ds = q_Index query)))
  /\ (forall queryStr,
        HasPrefix queryStr "#" = true ->
        indexPattern (drop (countMarkers queryStr) queryStr) = None ->
        q_ExplicitIndex (fst (ParseQuery queryStr)) = false
        /\ formatQuery (fst (ParseQuery queryStr))
           = take (countMarkers queryStr) queryStr +:+
             TrimSpace (drop (countMarkers queryStr) queryStr))
  /\ (forall queryStr t,
        HasPrefix queryStr "#" = true ->
        drop (countMarkers queryStr) queryStr = t +:+ "[0]" ->
        noLF t = true ->
        q_ExplicitIndex (fst (ParseQuery queryStr)) = true
        /\ q_Index (fst (ParseQuery queryStr)) = 0
        /\ formatQuery (fst (ParseQuery queryStr))
           = take (countMarkers queryStr) queryStr +:+ TrimSpace t +:+ "[0]").
Proof.
  split; [|split].
  - intros query Hs.
    exists (markers (Z.to_nat (q_Level query))),
           (if q_ExplicitIndex query
            then "[" +:+ Sprintf_d (q_Index query) +:+ "]"
            else EmptyString).
    split.
    { unfold formatQuery.
      destruct (String.eqb_spec (q_Type query) "frontmatter") as [E|E];
        [contradiction|reflexivity]. }
    split; [apply markers_length|]. split; [apply markers_allMarkers|].
    split.
    + intros ->. reflexivity.
    + intros ->. exists (Sprintf_d (q_Index query)).
      split; [reflexivity|]. apply Sprintf_d_decimal.
  - intros queryStr Hp Hn. unfold ParseQuery. rewrite Hp, Hn.
    split; [reflexivity|].
    unfold formatQuery.
    cbn [fst q_Type q_Level q_Title q_ExplicitIndex String.eqb Ascii.eqb
         Bool.eqb].
    rewrite Nat2Z.id, append_empty_r, markers_take. reflexivity.
  - intros queryStr t Hp Hr Hn. unfold ParseQuery.
    rewrite Hp, Hr, (indexPattern_zero_suffix t Hn).
    split; [reflexivity|]. split; [reflexivity|].
    unfold formatQuery.
    cbn [fst q_Type q_Level q_Title q_ExplicitIndex q_Index String.eqb
         Ascii.eqb Bool.eqb].
    rewrite Nat2Z.id, markers_take. reflexivity.
Qed.

(** The renderings of [#], of [#[0]] and of [###Deep]. *)
Lemma C9_witness :
  formatQuery (fst (ParseQuery "#")) = "#"
  /\ formatQuery (fst (ParseQuery "#[0]")) = "#[0]"
  /\ formatQuery (fst (ParseQuery "###Deep")) = "###Deep".
Proof.
  destruct C9_canonical_rendering as (_ & Himplicit & Hexplicit).
  split; [|split].
  - exact (proj2 (Himplicit "#" eq_refl eq_refl)).
  - exact (proj2 (proj2 (Hexplicit "#[0]" EmptyString eq_refl eq_refl
                           eq_refl))).
  - exact (proj2 (Himplicit "###Deep" eq_refl eq_refl)).
Defined.

(* ===================================================================== *)
(** * The code-fence filter on section bodies *)
(* ===================================================================== *)

Lemma length_repeatByte c n : String.length (repeatByte c n) = n.
Proof. induction n as [|n IH]; [reflexivity|]. cbn. now rewrite IH. Qed.

Lemma get_repeatByte c n : String.get n (String c (repeatByte c n)) = Some c.
Proof. induction n as [|n IH]; [reflexivity|]. exact IH. Qed.

Lemma noLF_repeatByte n : noLF (repeatByte "a" n) = true.
Proof. induction n as [|n IH]; [reflexivity|]. exact IH. Qed.

Lemma endsWithCR_repeatByte n : endsWithCR (repeatByte "a" n) = false.
Proof.
  induction n as [|n IH]; [reflexivity|].
  destruct n as [|m]; [reflexivity|]. exact IH.
Qed.

Lemma DecodeLastRune_repeatByte n :
  DecodeLastRuneInString (String "a" (repeatByte "a" n)) = (97, 1%nat).
Proof.
  unfold DecodeLastRuneInString.
  change (String.length (String "a" (repeatByte "a" n)))
    with (S (String.length (repeatByte "a" n))).
  rewrite length_repeatByte. cbv beta iota zeta. unfold byteAt.
  rewrite get_repeatByte. reflexivity.
Qed.

Lemma TrimSpace_repeatByte n : TrimSpace (repeatByte "a" n) = repeatByte "a" n.
Proof.
  destruct n as [|n]; [reflexivity|]. unfold TrimSpace.
  rewrite length_repeatByte.
  change (trimLeftSpace (S n) (repeatByte "a" (S n)))
    with (String "a" (repeatByte "a" n)).
  change (String.length (String "a" (repeatByte "a" n)))
    with (S (String.length (repeatByte "a" n))).
  cbn [trimRightSpace]. now rewrite DecodeLastRune_repeatByte.
Qed.

Lemma longLine_cons :
  longLine = String "a" (repeatByte "a" (Z.to_nat 65535)).
Proof.
  unfold longLine, MaxScanTokenSize.
  replace (Z.to_nat 65536) with (S (Z.to_nat 65535)) by lia. reflexivity.
Qed.

Lemma longLine_not_fence : isFence longLine = false.
Proof.
  unfold isFence, longLine. rewrite TrimSpace_repeatByte.
  fold longLine. now rewrite longLine_cons.
Qed.

Lemma longLine_not_heading : isHeading longLine = false.
Proof.
  unfold isHeading, longLine. rewrite TrimSpace_repeatByte.
  fold longLine. now rewrite longLine_cons.
Qed.

Lemma longLine_not_short : isShort longLine = false.
Proof.
  unfold isShort, longLine. rewrite length_repeatByte.
  apply Nat.ltb_irrefl.
Qed.

(** The filter on one line that the scanner refuses. *)
Lemma removeCodeBlocks_too_long t :
  noLF t = true -> isShort t = false -> removeCodeBlocks t = EmptyString.
Proof.
  intros Hn Hs. unfold removeCodeBlocks, ScanTokens, rawLines.
  rewrite (Split_nl_single t Hn).
  destruct t as [|c t]; [reflexivity|]. cbn [removeLastEmpty takeShort].
  unfold isShort in Hs. rewrite Hs. reflexivity.
Qed.

(** The document made of the heading [# A] and one further line. *)
Lemma sections_of_heading_and_line {Value : Type} (dec : Decoder Value) t :
  noLF t = true -> isHeading t = false ->
  Sections (fst (ParseDocument dec ("# A" +:+ nl +:+ t) "doc.md" false))
  = [mkSection 1 "A" "# A" t 0].
Proof.
  intros Hn Hh. rewrite ParseDocument_unfold. cbn [fst Sections].
  unfold parsedSections, sectionLines.
  rewrite (Split_nl_app "# A" t eq_refl), (Split_nl_single t Hn).
  change (splitFrontmatter ["# A"; t]) with (@None (list string), ["# A"; t]).
  cbn [snd]. unfold splitLoop. cbn [fold_left].
  set (st := splitStep initSplit "# A").
  unfold splitStep at 1. rewrite Hh. unfold finishSplit.
  cbn [currentSection sections bodyLines].
  change (currentSection st) with (Some (mkSection 1 "A" "# A" EmptyString 0)).
  change (sections st) with (@nil Section_).
  change (bodyLines st) with (@nil string).
  unfold closeSection. cbn [app Join_nl Level Title Heading Index].
  now rewrite (TrimRight_nl_noLF t Hn).
Qed.

(** C7 (as the code has it). The filter receives the bodies of the parsed
    sections.  On such a body, when its lines are each shorter than the
    scanner's largest token, do not end in a carriage return and are not
    fence lines, the code-fence filter is the identity. *)
Theorem C7_filter_identity_without_fences {Value : Type}
    (yaml_Unmarshal : Decoder Value) (content filePath : string)
    (s : Section_) :
  In s (Sections (fst (ParseDocument yaml_Unmarshal content filePath false))) ->
  Forall (fun l => isFence l = false) (Split_nl (Body s)) ->
  Forall (fun l => isShort l = true) (Split_nl (Body s)) ->
  Forall (fun l => endsWithCR l = false) (Split_nl (Body s)) ->
  removeCodeBlocks (Body s) = Body s.
Proof.
  intros Hin Hf Hs Hc. apply removeCodeBlocks_identity; try assumption.
  rewrite ParseDocument_unfold in Hin. cbn [fst Sections] in Hin.
  assert (Ht : Forall (fun s => TrimRight_nl (Body s) = Body s)
                 (parsedSections content)).
  { unfold parsedSections. apply splitLoop_bodies_trimmed. constructor. }
  rewrite Forall_forall in Ht. apply Ht. now apply list_elem_of_In.
Qed.

(** C7 fails as stated on bodies the filter receives.  The body of the
    section of [# A] followed by the line [x] and a carriage return has no
    fence line, and the filter drops its carriage return.  The body made
    of one line of 65536 bytes has no fence line and no carriage return,
    and the filter returns the empty string. *)
Lemma C7_counterexample :
  (forall (Value : Type) (dec : Decoder Value),
     Sections (fst (ParseDocument dec ("# A" +:+ nl +:+ crLine)
                      "doc.md" false))
     = [mkSection 1 "A" "# A" crLine 0])
  /\ Forall (fun l => isFence l = false) (Split_nl crLine)
  /\ Forall (fun l => isShort l = true) (Split_nl crLine)
  /\ removeCodeBlocks crLine = "x"
  /\ removeCodeBlocks crLine <> crLine
  /\ (forall (Value : Type) (dec : Decoder Value),
        Sections (fst (ParseDocument dec ("# A" +:+ nl +:+ longLine)
                         "doc.md" false))
        = [mkSection 1 "A" "# A" longLine 0])
  /\ String.length longLine = Z.to_nat 65536
  /\ Forall (fun l => isFence l = false) (Split_nl longLine)
  /\ Forall (fun l => endsWithCR l = false) (Split_nl longLine)
  /\ removeCodeBlocks longLine = EmptyString
  /\ removeCodeBlocks longLine <> longLine.
Proof.
  assert (Hn : noLF longLine = true) by apply noLF_repeatByte.
  assert (Hr : removeCodeBlocks longLine = EmptyString)
    by (apply removeCodeBlocks_too_long;
        [exact Hn | exact longLine_not_short]).
  split; [intros; reflexivity|].
  split; [repeat constructor|].
  split; [repeat constructor|].
  split; [reflexivity|].
  split; [vm_compute; discriminate|].
  split; [intros;
          exact (sections_of_heading_and_line dec longLine Hn
                   longLine_not_heading)|].
  split; [apply length_repeatByte|].
  split; [rewrite (Split_nl_single _ Hn); repeat constructor;
          exact longLine_not_fence|].
  split; [rewrite (Split_nl_single _ Hn); repeat constructor;
          apply endsWithCR_repeatByte|].
  split; [exact Hr|].
  rewrite Hr, longLine_cons. discriminate.
Qed.

Lemma C7_witness :
  (forall (Value : Type) (dec : Decoder Value),
     In (mkSection 1 "A" "# A" ("a" +:+ nl +:+ nl +:+ "b") 0)
       (Sections (fst (ParseDocument dec
                         ("# A" +:+ nl +:+ "a" +:+ nl +:+ nl +:+ "b" +:+ nl)
                         "doc.md" false))))
  /\ removeCodeBlocks ("a" +:+ nl +:+ nl +:+ "b") = "a" +:+ nl +:+ nl +:+ "b".
Proof.
  assert (Hin : forall (Value : Type) (dec : Decoder Value),
             In (mkSection 1 "A" "# A" ("a" +:+ nl +:+ nl +:+ "b") 0)
               (Sections (fst (ParseDocument dec
                                 ("# A" +:+ nl +:+ "a" +:+ nl +:+ nl +:+ "b"
                                  +:+ nl) "doc.md" false))))
    by (intros; left; reflexivity).
  split; [exact Hin|].
  refine (C7_filter_identity_without_fences
            (fun _ (m : gmap string (option unit)) => (m, None))
            ("# A" +:+ nl +:+ "a" +:+ nl +:+ nl +:+ "b" +:+ nl) "doc.md"
            (mkSection 1 "A" "# A" ("a" +:+ nl +:+ nl +:+ "b") 0)
            (Hin _ _) _ _ _); repeat constructor.
Defined.

(* ===================================================================== *)
(** * The metadata block and the decoder's errors *)
(* ===================================================================== *)

Section DecoderErrors.

Context {Value : Type}.
Variable yaml_Unmarshal : Decoder Value.

(** C8 (as the code has it). [ParseDocument] never returns an error: what
    the decoder reports is discarded, and the metadata mapping is whatever
    the decoder stored in the empty map it was given, failure or not.  The
    sections do not depend on the decoder; after a metadata block closed
    by a second delimiter they are the sections of the lines that follow
    the block: their headings are the heading lines among these, in order,
    and each body is made of the lines up to the next heading line. *)
Theorem C8_malformed_metadata_is_swallowed content filePath noBlocks :
  snd (ParseDocument yaml_Unmarshal content filePath noBlocks) = None
  /\ (forall (Value' : Type) (dec' : Decoder Value'),
        Sections (fst (ParseDocument yaml_Unmarshal content filePath noBlocks))
        = Sections (fst (ParseDocument dec' content filePath noBlocks)))
  /\ (forall first block closing rest,
        Split_nl content = first :: block ++ closing :: rest ->
        TrimSpace first = "---" ->
        Forall (fun l => TrimSpace l <> "---") block ->
        TrimSpace closing = "---" ->
        Frontmatter
          (fst (ParseDocument yaml_Unmarshal content filePath noBlocks))
        = match block with
          | [] => ∅
          | _ => fst (yaml_Unmarshal (Join_nl block) ∅)
          end
        /\ map Heading
             (Sections
                (fst (ParseDocument yaml_Unmarshal content filePath noBlocks)))
           = List.filter isHeading rest
        /\ map headingAndBody
             (Sections
                (fst (ParseDocument yaml_Unmarshal content filePath false)))
           = sectionTexts rest).
Proof.
  split; [now rewrite ParseDocument_unfold|].
  split; [intros; now rewrite !ParseDocument_unfold|].
  intros first block closing rest Hs Hf Hb Hc.
  assert (E : splitFrontmatter (Split_nl content) = (Some block, rest)).
  { rewrite Hs. unfold splitFrontmatter. rewrite Hf.
    cbn [String.eqb Ascii.eqb Bool.eqb andb].
    now rewrite (frontmatterLoop_closed block closing rest [] Hb Hc). }
  assert (El : sectionLines content = rest)
    by (unfold sectionLines; now rewrite E).
  rewrite !ParseDocument_unfold. cbn [fst Frontmatter Sections].
  rewrite E. cbn [fst]. split; [now destruct block|]. split.
  - destruct (parsedSections_inv content) as [H _]. rewrite El in H.
    destruct noBlocks; [|exact H].
    rewrite <- H. clear. induction (parsedSections content) as [|x l IH];
      [reflexivity|]. cbn. now rewrite IH.
  - unfold parsedSections, sectionTexts. rewrite El, splitLoop_chunks.
    cbn [initSplit sections currentSection bodyLines map app].
    destruct (chunks rest) as [pre [|[h b] cs]]; reflexivity.
Qed.

End DecoderErrors.

(** C8 fails as stated: a block that makes the decoder fail does not
    always leave the metadata mapping empty.  On the block below yaml.v3
    reports an error (the key of the third entry is a sequence, which does
    not fit the string keys of the map) and has stored the two other
    entries in the map; with that outcome of the decoder, [ParseDocument]
    returns no error and a metadata mapping that holds both fields. *)
Lemma C8_counterexample :
  let block := "a: 1" +:+ nl +:+ "b: 3" +:+ nl +:+ "[x]: 2" in
  let content := "---" +:+ nl +:+ block +:+ nl +:+ "---" +:+ nl +:+ "# A" in
  let dec : Decoder Z :=
    fun data m =>
      (<["b" := Some 3]> (<["a" := Some 1]> m),
       Some (Err "yaml: unmarshal errors")) in
  fst (splitFrontmatter (Split_nl content))
  = Some ["a: 1"; "b: 3"; "[x]: 2"]
  /\ Join_nl ["a: 1"; "b: 3"; "[x]: 2"] = block
  /\ snd (dec block ∅) <> None
  /\ snd (ParseDocument dec content "doc.md" false) = None
  /\ Frontmatter (fst (ParseDocument dec content "doc.md" false)) !! "a"
     = Some (Some 1)
  /\ Frontmatter (fst (ParseDocument dec content "doc.md" false)) !! "b"
     = Some (Some 3)
  /\ Frontmatter (fst (ParseDocument dec content "doc.md" false)) <> ∅.
Proof.
  cbv zeta.
  split; [reflexivity|]. split; [reflexivity|]. split; [discriminate|].
  split; [reflexivity|].
  split; [vm_compute; reflexivity|]. split; [vm_compute; reflexivity|].
  intros E. apply (f_equal (fun m => m !! "a")) in E.
  vm_compute in E. discriminate.
Qed.

Lemma C8_witness :
  let content :=
    "---" +:+ nl +:+ "a: 1" +:+ nl +:+ "[x]: 2" +:+ nl +:+ "---" +:+ nl
    +:+ "# A" +:+ nl +:+ "body" in
  Split_nl content
  = "---" :: ["a: 1"; "[x]: 2"] ++ "---" :: ["# A"; "body"]
  /\ (forall (Value : Type) (dec : Decoder Value),
        Frontmatter (fst (ParseDocument dec content "doc.md" false))
        = fst (dec ("a: 1" +:+ nl +:+ "[x]: 2") ∅)
        /\ map headingAndBody
             (Sections (fst (ParseDocument dec content "doc.md" false)))
           = [("# A", "body")]).
Proof.
  cbv zeta. split; [reflexivity|]. intros Value dec.
  assert (Hb : Forall (fun l => TrimSpace l <> "---") ["a: 1"; "[x]: 2"])
    by (repeat constructor; vm_compute; discriminate).
  destruct (C8_malformed_metadata_is_swallowed dec
              ("---" +:+ nl +:+ "a: 1" +:+ nl +:+ "[x]: 2" +:+ nl +:+ "---"
               +:+ nl +:+ "# A" +:+ nl +:+ "body") "doc.md" false)
    as (_ & _ & H).
  destruct (H "---" ["a: 1"; "[x]: 2"] "---" ["# A"; "body"]
              eq_refl eq_refl Hb eq_refl) as (H1 & _ & H3).
  split; [exact H1|exact H3].
Defined.
